(** * WassersteinNN: distances, neighbourhood estimation and error aggregation

    A shallow embedding of [src/wasserstein_nn.py].

    - numpy [float64] values are IEEE-754 binary64 numbers, modelled by
      [spec_float] with [prec = 53] and [emax = 1024] (round to nearest,
      ties to even; not-a-number has no payload);
    - numpy arrays are a shape together with an accessor: every value of
      the array types below is a rectangular array, as in numpy;
    - Python exceptions are an error monad ([result]);
    - reductions sum left to right, which is numpy's order for the short
      axes used here (numpy switches to pairwise summation on long
      contiguous axes; no theorem below depends on the order). *)

From Stdlib Require Import String ZArith List Bool Lia.
From Stdlib Require Import Floats.SpecFloat.
Import ListNotations.
Local Open Scope Z_scope.

(** ** binary64 arithmetic *)

Module F64.

Definition prec : Z := 53.
Definition emax : Z := 1024.

Definition float := spec_float.

Definition zero : float := S754_zero false.
Definition nan : float := S754_nan.
Definition inf : float := S754_infinity false.
Definition neg_inf : float := S754_infinity true.

Definition add : float -> float -> float := SFadd prec emax.
Definition sub : float -> float -> float := SFsub prec emax.
Definition mul : float -> float -> float := SFmul prec emax.
Definition div : float -> float -> float := SFdiv prec emax.
Definition leb : float -> float -> bool := SFleb.
Definition ltb : float -> float -> bool := SFltb.

(** Conversion of a Python/numpy integer to [float64]. *)
Definition of_Z (z : Z) : float := binary_normalize prec emax z 0 false.
Definition of_nat (k : nat) : float := of_Z (Z.of_nat k).

Definition isnan (x : float) : bool :=
  match x with S754_nan => true | _ => false end.

Definition isfinite (x : float) : bool :=
  match x with S754_zero _ | S754_finite _ _ _ => true | _ => false end.

(** [x ** 2] on a float array: numpy squares by multiplying. *)
Definition square (x : float) : float := mul x x.

(** [np.clip(x, a_min=0, a_max=None)]: not-a-number passes through. *)
Definition clip0 (x : float) : float := if ltb x zero then zero else x.

End F64.

Import F64.

(** ** numpy reductions over one axis *)

(** The slice with not-a-number replaced by [0.0], as [np.nanmean] does
    before it sums. *)
Definition replace_nan (l : list float) : list float :=
  map (fun x => if isnan x then zero else x) l.

(** [np.sum] of a slice: [0.0] when empty, else the entries added to the
    first one in order. *)
Definition sum (l : list float) : float :=
  match l with
  | [] => zero
  | x :: xs => fold_left add xs x
  end.

Definition count_not_nan (l : list float) : nat :=
  length (filter (fun x => negb (isnan x)) l).

(** [np.nanmean] of a one-dimensional slice: the sum of the entries that
    are not not-a-number over their count; [0.0 / 0] is not-a-number. *)
Definition nanmean (l : list float) : float :=
  div (sum (replace_nan l)) (of_nat (count_not_nan l)).

(** ** Python exceptions *)

Inductive exn : Type := TypeError | IndexError | ValueError.

Inductive result (A : Type) : Type :=
| Ok (a : A)
| Raise (e : exn).
Arguments Ok {A} a.
Arguments Raise {A} e.

Definition bind {A B : Type} (r : result A) (k : A -> result B) : result B :=
  match r with
  | Ok a => k a
  | Raise e => Raise e
  end.

Notation "x <- r ;; k" := (bind r (fun x => k))
  (at level 61, r at next level, right associativity).

(** ** numpy arrays *)

Module Np.

(** A [float64] array of shape [(N, T, n, d)]. *)
Record tensor : Type := mk_tensor {
  t_N : nat; t_T : nat; t_n : nat; t_d : nat;
  t_at : nat -> nat -> nat -> nat -> float }.

(** A [float64] array of three axes. *)
Record tensor3 : Type := mk_tensor3 {
  s_a : nat; s_b : nat; s_c : nat;
  s_at : nat -> nat -> nat -> float }.

(** A [float64] matrix. *)
Record fmatrix : Type := mk_fmatrix {
  f_rows : nat; f_cols : nat;
  f_at : nat -> nat -> float }.

(** An integer matrix (the mask [M]). *)
Record imatrix : Type := mk_imatrix {
  i_rows : nat; i_cols : nat;
  i_at : nat -> nat -> Z }.

(** A boolean matrix (the table [dists <= eta]). *)
Record bmatrix : Type := mk_bmatrix {
  b_rows : nat; b_cols : nat;
  b_at : nat -> nat -> bool }.

Definition tabulate {A : Type} (k : nat) (f : nat -> A) : list A :=
  map f (seq 0 k).

(** The matrix as a list of rows. *)
Definition to_rows (D : fmatrix) : list (list float) :=
  tabulate (f_rows D) (fun a => tabulate (f_cols D) (fun b => f_at D a b)).

(** Two matrices with the same shape and the same entries. *)
Definition fm_eq (A B : fmatrix) : Prop :=
  f_rows A = f_rows B /\ f_cols A = f_cols B /\
  forall a b, (a < f_rows A)%nat -> (b < f_cols A)%nat -> f_at A a b = f_at B a b.

(** An integer index into an axis of [size] entries; negative indices
    count from the end. *)
Definition norm_index (size : nat) (k : Z) : result nat :=
  if (0 <=? k) && (k <? Z.of_nat size) then Ok (Z.to_nat k)
  else if (- Z.of_nat size <=? k) && (k <? 0) then Ok (Z.to_nat (k + Z.of_nat size))
  else Raise IndexError.

(** [A[mask] = nan] for a two-dimensional boolean [mask] computed from
    [M] by [hit]: the mask must have the shape of the first two axes. *)
Definition set_nan_where (hit : Z -> bool) (A : tensor) (M : imatrix) : result tensor :=
  if (i_rows M =? t_N A)%nat && (i_cols M =? t_T A)%nat then
    Ok (mk_tensor (t_N A) (t_T A) (t_n A) (t_d A)
          (fun i t s c => if hit (i_at M i t) then nan else t_at A i t s c))
  else Raise IndexError.

(** [A.reshape((N, T, n))] of an array of shape [(N, T, n, d)]. *)
Definition reshape3 (A : tensor) : result tensor3 :=
  if (t_N A * t_T A * t_n A * t_d A =? t_N A * t_T A * t_n A)%nat then
    Ok (mk_tensor3 (t_N A) (t_T A) (t_n A) (fun i t s => t_at A i t s 0%nat))
  else Raise ValueError.

Definition swapaxes01 (A : tensor3) : tensor3 :=
  mk_tensor3 (s_b A) (s_a A) (s_c A) (fun a b c => s_at A b a c).

(** [(A[:, None, :, :] - A) ** 2]: entry [p, q, i, s] is the square of
    [A[p, i, s] - A[q, i, s]]. *)
Definition pairwise_sq_diff (A : tensor3) : tensor :=
  mk_tensor (s_a A) (s_a A) (s_b A) (s_c A)
    (fun p q i s => square (sub (s_at A p i s) (s_at A q i s))).

(** [np.nanmean(A, axis=-1)]. *)
Definition nanmean_last4 (A : tensor) : tensor3 :=
  mk_tensor3 (t_N A) (t_T A) (t_n A)
    (fun p q i => nanmean (tabulate (t_d A) (fun s => t_at A p q i s))).

Definition nanmean_last3 (A : tensor3) : fmatrix :=
  mk_fmatrix (s_a A) (s_b A)
    (fun p q => nanmean (tabulate (s_c A) (fun i => s_at A p q i))).

(** [D <= v] for a scalar [v]: false wherever either side is
    not-a-number. *)
Definition le_scalar (D : fmatrix) (v : float) : bmatrix :=
  mk_bmatrix (f_rows D) (f_cols D) (fun a b => leb (f_at D a b) v).

(** [B[k]]: row [k] of a boolean matrix. *)
Definition brow (B : bmatrix) (k : Z) : result (list bool) :=
  r <- norm_index (b_rows B) k ;;
  Ok (tabulate (b_cols B) (fun t => b_at B r t)).

(** [M[k, :]] and [M[:, k]]. *)
Definition irow (M : imatrix) (k : Z) : result (list Z) :=
  r <- norm_index (i_rows M) k ;;
  Ok (tabulate (i_cols M) (fun t => i_at M r t)).

Definition icol (M : imatrix) (k : Z) : result (list Z) :=
  c <- norm_index (i_cols M) k ;;
  Ok (tabulate (i_rows M) (fun r => i_at M r c)).

Definition full (r c : nat) (v : float) : fmatrix := mk_fmatrix r c (fun _ _ => v).

Definition transpose (D : fmatrix) : fmatrix :=
  mk_fmatrix (f_cols D) (f_rows D) (fun a b => f_at D b a).

(** Entrywise sum of two matrices of the same shape. *)
Definition fm_add (A B : fmatrix) : fmatrix :=
  mk_fmatrix (f_rows A) (f_cols A) (fun a b => add (f_at A a b) (f_at B a b)).

Definition clip_min0 (D : fmatrix) : fmatrix :=
  mk_fmatrix (f_rows D) (f_cols D) (fun a b => clip0 (f_at D a b)).

Definition fill_diagonal (D : fmatrix) (v : float) : fmatrix :=
  mk_fmatrix (f_rows D) (f_cols D) (fun a b => if (a =? b)%nat then v else f_at D a b).

(** Positions of the true entries of a boolean vector. *)
Fixpoint nonzero_from (k : nat) (l : list bool) : list nat :=
  match l with
  | [] => []
  | b :: l' => if b then k :: nonzero_from (S k) l' else nonzero_from (S k) l'
  end.

Definition nonzero (l : list bool) : list nat := nonzero_from 0 l.

(** [A[i, mask]]: the cells of row [i] selected by a boolean vector
    over the second axis, as an array of shape [(k, n, d)] held with
    its middle axes flattened into the accessor. *)
Record cells : Type := mk_cells {
  c_k : nat; c_n : nat; c_d : nat;
  c_at : nat -> nat -> nat -> float }.

Definition take_row_mask (A : tensor) (i : Z) (mask : list bool) : result cells :=
  r <- norm_index (t_N A) i ;;
  if (length mask =? t_T A)%nat then
    let sel := nonzero mask in
    Ok (mk_cells (length sel) (t_n A) (t_d A)
          (fun a s c => t_at A r (nth a sel 0%nat) s c))
  else Raise IndexError.

(** [A[mask, j]]: the cells of column [j] selected by a boolean vector
    over the first axis. *)
Definition take_mask_col (A : tensor) (mask : list bool) (j : Z) : result cells :=
  if (length mask =? t_N A)%nat then
    c <- norm_index (t_T A) j ;;
    let sel := nonzero mask in
    Ok (mk_cells (length sel) (t_n A) (t_d A)
          (fun a s c' => t_at A (nth a sel 0%nat) c s c'))
  else Raise IndexError.

(** [np.size]. *)
Definition size (C : cells) : nat := (c_k C * c_n C * c_d C)%nat.

(** [np.nanmean(C, axis=0).flatten()]. *)
Definition nanmean_axis0_flat (C : cells) : list float :=
  concat (tabulate (c_n C) (fun s =>
    tabulate (c_d C) (fun c => nanmean (tabulate (c_k C) (fun a => c_at C a s c))))).

(** Broadcasting of two one-dimensional operands. *)
Definition broadcast2 {A B C : Type} (f : A -> B -> C)
    (xs : list A) (ys : list B) : result (list C) :=
  if (length xs =? length ys)%nat then Ok (map (fun p => f (fst p) (snd p)) (combine xs ys))
  else match xs, ys with
       | [x], _ => Ok (map (f x) ys)
       | _, [y] => Ok (map (fun x => f x y) xs)
       | _, _ => Raise ValueError
       end.

(** Broadcast length of one axis. *)
Definition broadcast_dim (a b : nat) : result nat :=
  if (a =? b)%nat then Ok a
  else if (a =? 1)%nat then Ok b
  else if (b =? 1)%nat then Ok a
  else Raise ValueError.

(** [(A - B) ** 2] for two matrices, with broadcasting. *)
Definition fm_sq_diff (A B : fmatrix) : result fmatrix :=
  r <- broadcast_dim (f_rows A) (f_rows B) ;;
  c <- broadcast_dim (f_cols A) (f_cols B) ;;
  Ok (mk_fmatrix r c (fun a b =>
        square (sub (f_at A (if (f_rows A =? 1)%nat then 0%nat else a)
                            (if (f_cols A =? 1)%nat then 0%nat else b))
                    (f_at B (if (f_rows B =? 1)%nat then 0%nat else a)
                            (if (f_cols B =? 1)%nat then 0%nat else b))))).

(** [np.nanmean(np.nanmean(D, axis=1), axis=0)] of a matrix. *)
Definition nanmean_rows_then_all (D : fmatrix) : float :=
  nanmean (tabulate (f_rows D) (fun a => nanmean (tabulate (f_cols D) (fun b => f_at D a b)))).

(** Assignment [l[i, j] = v] to a Python list of lists: a list accepts
    an integer or a slice as index, a tuple raises. *)
Definition list_setitem_tuple {A : Type} (l : list (list A)) (key : Z * Z) (v : A)
  : result (list (list A)) := Raise TypeError.

(** Assignment [D[i, j] = v] to a matrix. *)
Definition fm_setitem (D : fmatrix) (key : Z * Z) (v : float) : result fmatrix :=
  i <- norm_index (f_rows D) (fst key) ;;
  j <- norm_index (f_cols D) (snd key) ;;
  Ok (mk_fmatrix (f_rows D) (f_cols D)
        (fun a b => if (a =? i)%nat && (b =? j)%nat then v else f_at D a b)).

End Np.

Import Np.

(** ** The estimator *)

Module WassersteinNN.

Local Open Scope string_scope.

(** [wasserstein2_dist(Y_i, Y_j)]: [np.nanmean((Y_i - Y_j) ** 2)] of two
    sample vectors. *)
Definition wasserstein2_dist (Y_i Y_j : list float) : result float :=
  sq <- broadcast2 (fun a b => square (sub a b)) Y_i Y_j ;;
  Ok (nanmean sq).

(** [avg_wasserstein2_dist(Y_i, Y_j)] of two batches of [a] sample
    vectors ([a x n], the trailing unit axis dropped). *)
Definition avg_wasserstein2_dist (Y_i Y_j : fmatrix) : result float :=
  sq <- fm_sq_diff Y_i Y_j ;;
  Ok (nanmean_rows_then_all sq).

(** What the loop of [estimate] computes for one index before it stores
    it: [est], [nn_count_rc] and [list_neighbors_rc]. *)
Record cell_estimate : Type := mk_cell_estimate {
  est : list float;
  nn_count_rc : nat;
  list_neighbors_rc : option (list nat) }.

Definition estimate_at (nn_type : string) (Z : tensor) (M : imatrix)
    (neighborhoods : bmatrix) (i j : BinNums.Z) : result cell_estimate :=
  t_nn <- (if nn_type =? "ii" then brow neighborhoods j else brow neighborhoods i) ;;
  msk_inp_full <- (if nn_type =? "ii" then irow M i else icol M j) ;;
  neighbors <- (if nn_type =? "ii" then take_row_mask Z i t_nn
                else take_mask_col Z t_nn j) ;;
  if (0 <? size neighbors)%nat then
    let est := nanmean_axis0_flat neighbors in
    let nn_count_rc := c_k neighbors in
    both <- broadcast2 (fun (b : bool) m => Z.land (if b then 1 else 0) m)
              t_nn msk_inp_full ;;
    Ok (mk_cell_estimate est nn_count_rc
          (Some (nonzero (map (fun v => negb (v =? 0)%Z) both))))
  else
    Ok (mk_cell_estimate (repeat neg_inf (t_n Z)) 0 None).

(** The three accumulators of [estimate]. [ests] and [list_neighbors]
    are Python lists of lists ([[[None] * T] * N], whose [N] rows are
    one and the same list object); [nn_count] is a numpy matrix. *)
Record accumulators : Type := mk_accumulators {
  ests : list (list (option (list float)));
  nn_count : fmatrix;
  list_neighbors : list (list (option (list nat))) }.

Fixpoint estimate_loop (nn_type : string) (Z : tensor) (M : imatrix)
    (neighborhoods : bmatrix) (inds : list (BinNums.Z * BinNums.Z))
    (acc : accumulators) : result accumulators :=
  match inds with
  | [] => Ok acc
  | (i, j) :: rest =>
      r <- estimate_at nn_type Z M neighborhoods i j ;;
      ests' <- list_setitem_tuple (ests acc) (i, j) (Some (est r)) ;;
      nn_count' <- fm_setitem (nn_count acc) (i, j) (of_nat (nn_count_rc r)) ;;
      list_neighbors' <- list_setitem_tuple (list_neighbors acc) (i, j)
                           (list_neighbors_rc r) ;;
      estimate_loop nn_type Z M neighborhoods rest
        (mk_accumulators ests' nn_count' list_neighbors')
  end.

Inductive estimate_ret : Type :=
| RetEsts (e : list (list (option (list float))))
| RetAll (acc : accumulators).

(** [estimate(self, Z, M, eta, inds, dists, ret_nn)]. [Z_cp] is built
    and not read again. *)
Definition estimate (nn_type : string) (Z : tensor) (M : imatrix) (eta : float)
    (inds : list (BinNums.Z * BinNums.Z)) (dists : fmatrix) (ret_nn : bool)
  : result estimate_ret :=
  let N := t_N Z in
  let T := t_T Z in
  Z_cp <- set_nan_where (fun m => (m =? 0)%Z) Z M ;;
  Z_cp <- set_nan_where (fun m => (m =? 2)%Z) Z_cp M ;;
  let nn_count := full N T nan in
  let list_neighbors := repeat (repeat None T) N in
  let ests := repeat (repeat None T) N in
  let neighborhoods := le_scalar dists eta in
  acc <- estimate_loop nn_type Z M neighborhoods inds
           (mk_accumulators ests nn_count list_neighbors) ;;
  if ret_nn then Ok (RetAll acc) else Ok (RetEsts (WassersteinNN.ests acc)).

(** [distances(self, Z, M)]. *)
Definition distances (nn_type : string) (Z : tensor) (M : imatrix) : result fmatrix :=
  let N := t_N Z in
  let T := t_T Z in
  Z_cp <- set_nan_where (fun m => negb (m =? 1)%Z) Z M ;;
  let diffs := if nn_type =? "ii" then full T T zero else full N N zero in
  diffs <- (if nn_type =? "ii" then
              Z_cp <- reshape3 Z_cp ;;
              let diffs := nanmean_last4 (pairwise_sq_diff (swapaxes01 Z_cp)) in
              Ok (nanmean_last3 diffs)
            else if nn_type =? "uu" then
              Z_cp <- reshape3 Z_cp ;;
              let diffs := nanmean_last4 (pairwise_sq_diff Z_cp) in
              Ok (nanmean_last3 diffs)
            else Ok diffs) ;;
  let diffs := fm_add diffs (transpose diffs) in
  let diffs := clip_min0 diffs in
  Ok (fill_diagonal diffs inf).

(** [avg_error(self, ests, truth, inds=None)]. *)
Definition avg_error (ests truth : fmatrix)
    (inds : option (list (BinNums.Z * BinNums.Z))) : result float :=
  sq <- fm_sq_diff ests truth ;;
  Ok (nanmean_rows_then_all sq).

End WassersteinNN.

Import WassersteinNN.

(** ** Statements of the specification, and example inputs *)

Module Spec.

Local Open Scope string_scope.

(** Two results agree: the same exception, or values related by [R]. *)
Definition result_rel {A : Type} (R : A -> A -> Prop) (r1 r2 : result A) : Prop :=
  match r1, r2 with
  | Ok a, Ok b => R a b
  | Raise e1, Raise e2 => e1 = e2
  | _, _ => False
  end.

(** [M] has the shape of the first two axes of [Z], and [d = 1]. *)
Definition shape_ok (Z : tensor) (M : imatrix) : bool :=
  (i_rows M =? t_N Z)%nat && (i_cols M =? t_T Z)%nat && (t_d Z =? 1)%nat.

(** The arguments of [estimate] fit together and [(i, j)] is an index
    into the first two axes of [Z]. *)
Definition call_ok (nn_type : string) (Z : tensor) (M : imatrix) (dists : fmatrix)
    (i j : BinNums.Z) : bool :=
  (i_rows M =? t_N Z)%nat && (i_cols M =? t_T Z)%nat &&
  (if nn_type =? "ii"
   then (f_rows dists =? t_T Z)%nat && (f_cols dists =? t_T Z)%nat
   else (f_rows dists =? t_N Z)%nat && (f_cols dists =? t_N Z)%nat) &&
  (- Z.of_nat (t_N Z) <=? i)%Z && (i <? Z.of_nat (t_N Z))%Z &&
  (- Z.of_nat (t_T Z) <=? j)%Z && (j <? Z.of_nat (t_T Z))%Z.

(** The sample vectors of column [t], one row of the matrix per row of
    [Z]. *)
Definition column (Z : tensor) (t : nat) : fmatrix :=
  mk_fmatrix (t_N Z) (t_n Z) (fun i s => t_at Z i t s 0%nat).

(** Rows and columns of [Z] exchanged. *)
Definition swap_rows_cols (Z : tensor) : tensor :=
  mk_tensor (t_T Z) (t_N Z) (t_n Z) (t_d Z) (fun t i s c => t_at Z i t s c).

Definition itranspose (M : imatrix) : imatrix :=
  mk_imatrix (i_cols M) (i_rows M) (fun a b => i_at M b a).

(** The cell [(i, t)] of [Z] as [distances] sees it: not-a-number
    unless [M[i, t] = 1]. *)
Definition observed (Z : tensor) (M : imatrix) (i t s : nat) : float :=
  if (i_at M i t =? 1)%Z then t_at Z i t s 0%nat else nan.

(** Distance of rows [a] and [b] before symmetrisation, averaging the
    squared differences over the samples, then over the columns. *)
Definition uu_pair_samples_then_columns (Z : tensor) (M : imatrix) (a b : nat) : float :=
  nanmean (tabulate (t_T Z) (fun t =>
    nanmean (tabulate (t_n Z) (fun s =>
      square (sub (observed Z M a t s) (observed Z M b t s)))))).

(** The same, in the order of the specification's sentence: over the
    columns, then over the samples. *)
Definition uu_pair_columns_then_samples (Z : tensor) (M : imatrix) (a b : nat) : float :=
  nanmean (tabulate (t_n Z) (fun s =>
    nanmean (tabulate (t_T Z) (fun t =>
      square (sub (observed Z M a t s) (observed Z M b t s)))))).



Definition ones (r c : nat) : imatrix := mk_imatrix r c (fun _ _ => 1).

(** Shape [(2, 2, 3, 1)]: column 0 holds [0, 0, 0] in both rows,
    column 1 holds [1, 1, 1] in row 0 and [2, 2, 2] in row 1. *)
Definition Z223 : tensor :=
  mk_tensor 2 2 3 1 (fun i t _ _ => of_Z (Z.of_nat (t * (i + 1)))).

Definition D223 : fmatrix :=
  match distances "ii" Z223 (ones 2 2) with
  | Ok D => D
  | Raise _ => full 0 0 nan
  end.

(** Shape [(1, 2, 1, 1)] with the cell [(0, 1)] masked; the two tensors
    differ in that cell only. *)
Definition Z_masked (v : BinNums.Z) : tensor :=
  mk_tensor 1 2 1 1 (fun _ t _ _ => if (t =? 0)%nat then of_Z 5 else of_Z v).

Definition M_masked : imatrix :=
  mk_imatrix 1 2 (fun _ t => if (t =? 0)%nat then 1 else 0).

Definition D_near : fmatrix :=
  mk_fmatrix 2 2 (fun a b => if (a =? b)%nat then inf else zero).

(** Shape [(2, 2, 2, 1)]: row 0 holds [1, nan] and [1, 3], row 1 holds
    zeros. *)
Definition Z_gap : tensor :=
  mk_tensor 2 2 2 1 (fun i t s _ =>
    match i, t, s with
    | O, O, O => of_Z 1
    | O, O, _ => nan
    | O, _, O => of_Z 1
    | O, _, _ => of_Z 3
    | _, _, _ => zero
    end).

End Spec.

Import Spec.

(** ** Further notions used to state what the code does *)

Module Behaviour.

(** The sign bit of a value that is not not-a-number. *)
Definition has_sign (s : bool) (x : float) : bool :=
  match x with
  | S754_zero s' | S754_infinity s' | S754_finite s' _ _ => Bool.eqb s s'
  | S754_nan => false
  end.

Definition nonneg_or_nan (x : float) : bool := isnan x || has_sign false x.

(** Row [k] of the neighbourhood table. *)
Definition neighbor_row (nb : bmatrix) (k : nat) : list bool :=
  tabulate (b_cols nb) (fun t => b_at nb k t).

(** What the loop of [estimate] computes for an index without
    neighbour. *)
Definition sentinel (Z : tensor) : cell_estimate :=
  mk_cell_estimate (repeat neg_inf (t_n Z)) 0 None.

(** Distance of columns [a] and [b] before symmetrisation, averaging the
    squared differences over the samples, then over the rows. *)
Definition ii_pair_samples_then_rows (Z : tensor) (M : imatrix) (a b : nat) : float :=
  nanmean (tabulate (t_N Z) (fun i =>
    nanmean (tabulate (t_n Z) (fun s =>
      square (sub (observed Z M i a s) (observed Z M i b s)))))).

(** Column 0 observed, column 1 masked with the code 2. *)
Definition M_col_masked : imatrix :=
  mk_imatrix 2 2 (fun _ t => if (t =? 0)%nat then 1 else 2).

End Behaviour.

Import Behaviour.

(** * Facts about binary64 arithmetic *)

Module F64Facts.

Lemma add_comm x y : add x y = add y x.
Proof.
  unfold add.
  destruct x as [sx|sx| |sx mx ex], y as [sy|sy| |sy my ey]; simpl; try reflexivity;
    try (destruct sx, sy; reflexivity).
  rewrite (Z.min_comm ey ex), Z.add_comm. reflexivity.
Qed.

(** The sign given to the rounding functions only labels the result. *)
Lemma binary_round_aux_abs s s' m e l :
  SFabs (binary_round_aux prec emax s m e l) = SFabs (binary_round_aux prec emax s' m e l).
Proof.
  unfold binary_round_aux.
  destruct (shr_fexp prec emax m e l) as [mrs' e'].
  destruct (shr_fexp prec emax _ e' loc_Exact) as [mrs'' e''].
  destruct (shr_m mrs''); try reflexivity.
  destruct (e'' <=? emax - prec); reflexivity.
Qed.

Lemma binary_round_abs s s' m e :
  SFabs (binary_round prec emax s m e) = SFabs (binary_round prec emax s' m e).
Proof.
  unfold binary_round.
  destruct (shl_align _ _ _) as [mz ez]. apply binary_round_aux_abs.
Qed.

Lemma binary_normalize_opp_abs m e :
  SFabs (binary_normalize prec emax (- m) e false)
  = SFabs (binary_normalize prec emax m e false).
Proof. destruct m; simpl; try reflexivity; apply binary_round_abs. Qed.

Lemma sub_abs_comm x y : SFabs (sub x y) = SFabs (sub y x).
Proof.
  unfold sub.
  destruct x as [sx|sx| |sx mx ex], y as [sy|sy| |sy my ey]; simpl; try reflexivity;
    try (destruct sx, sy; reflexivity).
  rewrite (Z.min_comm ey ex).
  rewrite <- binary_normalize_opp_abs. f_equal. f_equal. lia.
Qed.

Lemma square_abs x : square x = square (SFabs x).
Proof.
  unfold square, mul. destruct x as [s|s| |s m e]; simpl; try reflexivity;
    destruct s; reflexivity.
Qed.

Lemma square_sub_comm x y : square (sub x y) = square (sub y x).
Proof. rewrite square_abs, (square_abs (sub y x)), sub_abs_comm. reflexivity. Qed.

(** ** Comparisons *)

Lemma clip0_nonneg x : isnan (clip0 x) = false -> leb zero (clip0 x) = true.
Proof.
  unfold clip0, ltb, leb, SFltb, SFleb, zero.
  destruct x as [s|s| |s m e]; simpl; try discriminate; try reflexivity;
    destruct s; simpl; reflexivity.
Qed.

Lemma isfinite_not_nan x : isfinite x = true -> isnan x = false.
Proof. destruct x; simpl; congruence. Qed.


Lemma leb_ltb_trans d e1 e2 :
  leb d e1 = true -> ltb e1 e2 = true -> leb d e2 = true.
Proof.
  unfold leb, ltb, SFleb, SFltb.
  destruct d as [s0|s0| |s0 m0 x0], e1 as [s1|s1| |s1 m1 x1], e2 as [s2|s2| |s2 m2 x2];
    simpl; try discriminate; try reflexivity;
    try (destruct s0; simpl; try discriminate; try reflexivity);
    try (destruct s1; simpl; try discriminate; try reflexivity);
    try (destruct s2; simpl; try discriminate; try reflexivity).
  all: rewrite ?Pos.compare_cont_spec; simpl;
    destruct (Z.compare_spec x0 x1), (Z.compare_spec x1 x2), (Z.compare_spec x0 x2);
    try discriminate; try reflexivity; try lia; subst;
    destruct (Pos.compare_spec m0 m1), (Pos.compare_spec m1 m2), (Pos.compare_spec m0 m2);
    simpl; try discriminate; try reflexivity; try lia.
Qed.

(** ** A positive count converts to a positive float *)

Lemma shr_1_pos mrs p :
  shr_m mrs = Zpos p -> 1 < Zpos (digits2_pos p) ->
  exists p', shr_m (shr_1 mrs) = Zpos p' /\
             Zpos (digits2_pos p') = Zpos (digits2_pos p) - 1.
Proof.
  destruct mrs as [m r s]; cbn [shr_m]; intros -> H.
  destruct p as [p|p|]; cbn [shr_1 shr_m digits2_pos] in *;
    [exists p | exists p | lia]; (split; [reflexivity | lia]).
Qed.

Lemma iter_shr_1_pos n : forall mrs p,
  shr_m mrs = Zpos p -> Zpos n < Zpos (digits2_pos p) ->
  exists p', shr_m (iter_pos shr_1 n mrs) = Zpos p' /\
             Zpos (digits2_pos p') = Zpos (digits2_pos p) - Zpos n.
Proof.
  induction n as [n IH|n IH|]; intros mrs p Hm Hd; cbn [iter_pos];
    [ rewrite Pos2Z.inj_xI in * | rewrite Pos2Z.inj_xO in * | ].
  - destruct (shr_1_pos mrs p Hm) as [p1 [H1 D1]]; [lia|].
    destruct (IH _ _ H1) as [p2 [H2 D2]]; [lia|].
    destruct (IH _ _ H2) as [p3 [H3 D3]]; [lia|].
    exists p3; split; [exact H3 | lia].
  - destruct (IH _ _ Hm) as [p2 [H2 D2]]; [lia|].
    destruct (IH _ _ H2) as [p3 [H3 D3]]; [lia|].
    exists p3; split; [exact H3 | lia].
  - apply shr_1_pos; assumption.
Qed.

Lemma shr_record_of_loc_m m l : shr_m (shr_record_of_loc m l) = m.
Proof. destruct l as [|[| |]]; reflexivity. Qed.

Lemma shr_fexp_pos m e l :
  -1074 <= e ->
  exists m', shr_m (fst (shr_fexp prec emax (Zpos m) e l)) = Zpos m' /\
             -1074 <= snd (shr_fexp prec emax (Zpos m) e l).
Proof.
  intros He. unfold shr_fexp, shr.
  destruct (fexp prec emax (Zdigits2 (Z.pos m) + e) - e) as [|n|n] eqn:E; simpl.
  - exists m. rewrite shr_record_of_loc_m. split; [reflexivity | exact He].
  - destruct (iter_shr_1_pos n (shr_record_of_loc (Zpos m) l) m (shr_record_of_loc_m _ _))
      as [p' [H _]].
    + unfold fexp, SpecFloat.emin, prec, emax in E. simpl Zdigits2 in E. lia.
    + exists p'. split; [exact H | lia].
  - exists m. rewrite shr_record_of_loc_m. split; [reflexivity | exact He].
Qed.

Lemma round_nearest_even_pos m l : exists m', round_nearest_even (Zpos m) l = Zpos m'.
Proof.
  destruct l as [|[| |]]; simpl; eauto.
  destruct m; simpl; eauto.
Qed.

Lemma binary_round_aux_pos s m e l :
  -1074 <= e ->
  (exists m' e', binary_round_aux prec emax s (Zpos m) e l = S754_finite s m' e')
  \/ binary_round_aux prec emax s (Zpos m) e l = S754_infinity s.
Proof.
  intros He. unfold binary_round_aux.
  destruct (shr_fexp_pos m e l He) as [m1 [H1 E1]].
  destruct (shr_fexp prec emax (Zpos m) e l) as [mrs' e']. simpl in H1, E1.
  rewrite H1.
  destruct (round_nearest_even_pos m1 (loc_of_shr_record mrs')) as [m2 ->].
  destruct (shr_fexp_pos m2 e' loc_Exact E1) as [m3 [H3 E3]].
  destruct (shr_fexp prec emax (Zpos m2) e' loc_Exact) as [mrs'' e'']. simpl in H3, E3.
  rewrite H3.
  destruct (e'' <=? emax - prec); eauto.
Qed.

Lemma binary_round_pos s m e :
  -1074 <= e ->
  (exists m' e', binary_round prec emax s m e = S754_finite s m' e')
  \/ binary_round prec emax s m e = S754_infinity s.
Proof.
  intros He. unfold binary_round.
  destruct (shl_align m e _) as [mz ez] eqn:E.
  apply binary_round_aux_pos.
  unfold shl_align in E.
  destruct (fexp prec emax (Z.pos (digits2_pos m) + e) - e) eqn:E2;
    inversion E; subst; try exact He.
  unfold fexp, SpecFloat.emin, prec, emax. lia.
Qed.

Lemma of_nat_pos k :
  (0 < k)%nat ->
  (exists m e, of_nat k = S754_finite false m e) \/ of_nat k = S754_infinity false.
Proof.
  intros Hk. unfold of_nat, of_Z.
  destruct (Z.of_nat k) eqn:E; try lia.
  simpl. apply binary_round_pos. lia.
Qed.

Lemma div_zero_of_nat k : (0 < k)%nat -> div zero (of_nat k) = zero.
Proof.
  intros Hk. destruct (of_nat_pos k Hk) as [[m [e ->]] | ->]; reflexivity.
Qed.

End F64Facts.

Import F64Facts.

(** * Facts about the array model *)

Section ArrayFacts.

Context {A B C : Type}.

Lemma length_tabulate k (f : nat -> A) : length (tabulate k f) = k.
Proof. unfold tabulate. rewrite length_map, length_seq. reflexivity. Qed.

Lemma tabulate_ext k (f g : nat -> A) :
  (forall x, f x = g x) -> tabulate k f = tabulate k g.
Proof. intros H. unfold tabulate. apply map_ext. exact H. Qed.

Lemma tabulate_ext_in k (f g : nat -> A) :
  (forall x, (x < k)%nat -> f x = g x) -> tabulate k f = tabulate k g.
Proof.
  intros H. unfold tabulate. apply map_ext_in. intros x Hx.
  apply in_seq in Hx. apply H. lia.
Qed.

Lemma length_filter_mono (p q : A -> bool) l :
  (forall x, p x = true -> q x = true) ->
  (length (filter p l) <= length (filter q l))%nat.
Proof.
  intros H. induction l as [|x l IH]; simpl; [lia|].
  destruct (p x) eqn:E.
  - rewrite (H _ E). simpl. lia.
  - destruct (q x); simpl; lia.
Qed.

Lemma broadcast2_same_length (f : A -> B -> C) xs ys :
  length xs = length ys -> exists l, broadcast2 f xs ys = Ok l.
Proof. intros H. unfold broadcast2. rewrite H, Nat.eqb_refl. eauto. Qed.

Lemma broadcast2_ext (f g : A -> B -> C) xs ys :
  (forall a b, f a b = g a b) -> broadcast2 f xs ys = broadcast2 g xs ys.
Proof.
  intros H. unfold broadcast2.
  destruct (length xs =? length ys)%nat.
  - f_equal. apply map_ext. intros [a b]; apply H.
  - destruct xs as [|x [|x' xs]], ys as [|y [|y' ys]]; cbv beta iota; try reflexivity;
      f_equal; apply map_ext; intros; apply H.
Qed.

Lemma map_combine_flip (f : A -> B -> C) xs : forall ys,
  map (fun p => f (fst p) (snd p)) (combine xs ys)
  = map (fun p => f (snd p) (fst p)) (combine ys xs).
Proof.
  induction xs as [|x xs IH]; intros [|y ys]; simpl; try reflexivity.
  f_equal. apply IH.
Qed.

(** Broadcasting does not depend on the side an operand is on. *)
Lemma broadcast2_flip (f : A -> B -> C) xs ys :
  broadcast2 f xs ys = broadcast2 (fun b a => f a b) ys xs.
Proof.
  unfold broadcast2. rewrite (Nat.eqb_sym (length ys)).
  destruct (length xs =? length ys)%nat eqn:E.
  - f_equal. apply map_combine_flip.
  - destruct xs as [|x [|x' xs]], ys as [|y [|y' ys]]; simpl in *;
      try reflexivity; discriminate.
Qed.

End ArrayFacts.

Lemma broadcast2_self {A C : Type} (f : A -> A -> C) xs :
  broadcast2 f xs xs = Ok (map (fun x => f x x) xs).
Proof.
  unfold broadcast2. rewrite Nat.eqb_refl. f_equal.
  induction xs as [|x xs IH]; simpl; [reflexivity|]. f_equal. exact IH.
Qed.

Lemma pick_in_range k x : (x < k)%nat -> (if (k =? 1)%nat then 0%nat else x) = x.
Proof. intros H. destruct (Nat.eqb_spec k 1); [lia | reflexivity]. Qed.

Lemma length_nonzero_from l : forall k,
  length (nonzero_from k l) = length (filter (fun b : bool => b) l).
Proof.
  induction l as [|b l IH]; intros k; simpl; [reflexivity|].
  destruct b; simpl; rewrite IH; reflexivity.
Qed.

Lemma length_nonzero_tabulate n (p : nat -> bool) :
  length (nonzero (tabulate n p)) = length (filter p (seq 0 n)).
Proof.
  unfold nonzero, tabulate. rewrite length_nonzero_from.
  induction (seq 0 n) as [|t s IH]; simpl; [reflexivity|].
  destruct (p t); simpl; rewrite IH; reflexivity.
Qed.


(** ** Integer indices *)

Lemma norm_index_ok size k :
  (- Z.of_nat size <=? k) = true -> (k <? Z.of_nat size) = true ->
  exists r, norm_index size k = Ok r /\ (r < size)%nat.
Proof.
  intros H1 H2. unfold norm_index.
  destruct (0 <=? k) eqn:E0.
  - rewrite H2. simpl.
    exists (Z.to_nat k). split; [reflexivity|].
    apply Z.leb_le in E0. apply Z.ltb_lt in H2. lia.
  - simpl. apply Z.leb_gt in E0.
    assert (Hk : (k <? 0) = true) by (apply Z.ltb_lt; lia).
    rewrite H1, Hk. simpl.
    exists (Z.to_nat (k + Z.of_nat size)). split; [reflexivity|].
    apply Z.leb_le in H1. lia.
Qed.

Lemma norm_index_of_nat size k :
  (Z.of_nat k <? Z.of_nat size) = true -> norm_index size (Z.of_nat k) = Ok k.
Proof.
  intros H. unfold norm_index. rewrite H.
  assert (E : (0 <=? Z.of_nat k) = true) by (apply Z.leb_le; lia).
  rewrite E. simpl. rewrite Nat2Z.id. reflexivity.
Qed.

(** * [distances] *)

(** Whatever the mode, the matrix returned is the raw matrix added to its
    transpose, clipped at zero, with its diagonal filled. *)
Lemma distances_shape_of nn_type Z M D :
  distances nn_type Z M = Ok D ->
  exists d, D = fill_diagonal (clip_min0 (fm_add d (transpose d))) inf /\
            f_rows d = f_cols d.
Proof.
  unfold distances.
  destruct (set_nan_where _ Z M) as [Zc|e]; simpl; [|discriminate].
  destruct (nn_type =? "ii")%string.
  - destruct (reshape3 Zc) as [Z3|e]; simpl; [|discriminate].
    intros H; inversion H; subst. eexists; split; reflexivity.
  - destruct (nn_type =? "uu")%string.
    + destruct (reshape3 Zc) as [Z3|e]; simpl; [|discriminate].
      intros H; inversion H; subst. eexists; split; reflexivity.
    + simpl. intros H; inversion H; subst. eexists; split; reflexivity.
Qed.

Lemma distances_returns nn_type Z M :
  shape_ok Z M = true -> exists D, distances nn_type Z M = Ok D.
Proof.
  unfold shape_ok, distances, set_nan_where. intros H.
  apply andb_prop in H as [H Hd]. rewrite H. simpl.
  apply Nat.eqb_eq in Hd.
  unfold reshape3; simpl. rewrite Hd, Nat.mul_1_r, Nat.eqb_refl.
  destruct (nn_type =? "ii")%string; simpl; [eauto|].
  destruct (nn_type =? "uu")%string; simpl; eauto.
Qed.

(** C5. For every [Z] and [M] of matching shape and every mode,
    [distances] returns a square matrix that is symmetric, whose diagonal
    entries are positive infinity and whose finite off-diagonal entries
    are greater than or equal to zero. *)
Theorem distances_symmetric_infinite_diagonal_nonnegative nn_type Z M :
  shape_ok Z M = true ->
  exists D, distances nn_type Z M = Ok D /\
    f_rows D = f_cols D /\
    (forall a b, (a < f_rows D)%nat -> (b < f_rows D)%nat -> f_at D a b = f_at D b a) /\
    (forall k, (k < f_rows D)%nat -> f_at D k k = inf) /\
    (forall a b, (a < f_rows D)%nat -> (b < f_rows D)%nat -> a <> b ->
       isfinite (f_at D a b) = true -> leb zero (f_at D a b) = true).
Proof.
  intros H. destruct (distances_returns nn_type Z M H) as [D HD].
  exists D. split; [exact HD|].
  destruct (distances_shape_of _ _ _ _ HD) as [d [-> Hsq]].
  simpl. repeat split.
  - exact Hsq.
  - intros a b _ _. rewrite (Nat.eqb_sym b a).
    destruct (a =? b)%nat; [reflexivity|]. rewrite add_comm. reflexivity.
  - intros k _. rewrite Nat.eqb_refl. reflexivity.
  - intros a b _ _ Hab. apply Nat.eqb_neq in Hab. rewrite Hab.
    intros Hf. apply clip0_nonneg, isfinite_not_nan, Hf.
Qed.

Lemma distances_invariants_witness :
  exists D, distances "ii" Z223 (ones 2 2) = Ok D /\
    f_rows D = f_cols D /\
    (forall a b, (a < f_rows D)%nat -> (b < f_rows D)%nat -> f_at D a b = f_at D b a) /\
    (forall k, (k < f_rows D)%nat -> f_at D k k = inf) /\
    (forall a b, (a < f_rows D)%nat -> (b < f_rows D)%nat -> a <> b ->
       isfinite (f_at D a b) = true -> leb zero (f_at D a b) = true).
Proof.
  apply (distances_symmetric_infinite_diagonal_nonnegative "ii" Z223 (ones 2 2)).
  reflexivity.
Defined.

(** With every cell observed, mode "ii" fills both triangles of the raw
    matrix, so that adding the transpose returns [x + x] where [x] is the
    average distance of the two columns. *)
Lemma distances_ii_offdiagonal_doubles Z M a b :
  shape_ok Z M = true ->
  (forall i t, i_at M i t = 1) ->
  a <> b ->
  exists D x,
    distances "ii" Z M = Ok D /\
    avg_wasserstein2_dist (column Z a) (column Z b) = Ok x /\
    f_at D a b = clip0 (add x x).
Proof.
  unfold shape_ok, distances, set_nan_where. intros H HM Hab.
  apply andb_prop in H as [H Hd]. rewrite H. cbn [bind].
  apply Nat.eqb_eq in Hd.
  unfold reshape3. cbn [t_N t_T t_n t_d]. rewrite Hd, Nat.mul_1_r, Nat.eqb_refl.
  simpl. eexists. eexists. split; [reflexivity|].
  unfold avg_wasserstein2_dist, fm_sq_diff, broadcast_dim. simpl.
  rewrite !Nat.eqb_refl. simpl. split; [reflexivity|].
  apply Nat.eqb_neq in Hab. rewrite Hab.
  unfold nanmean_rows_then_all. simpl.
  f_equal. f_equal.
  - f_equal. apply tabulate_ext_in. intros i Hi. f_equal.
    apply tabulate_ext_in. intros s Hs.
    rewrite !HM. simpl. rewrite (pick_in_range _ _ Hi), (pick_in_range _ _ Hs).
    reflexivity.
  - f_equal. apply tabulate_ext_in. intros i Hi. f_equal.
    apply tabulate_ext_in. intros s Hs.
    rewrite !HM. simpl. rewrite (pick_in_range _ _ Hi), (pick_in_range _ _ Hs).
    apply square_sub_comm.
Qed.

(** C4. On the tensor [Z223] of shape (2, 2, 3, 1) with every cell
    observed, the mean over the two rows of the mean squared difference
    over the three samples of the two columns is 2.5, and mode "ii"
    returns the matrix with off-diagonal entries 5.0 and an infinite
    diagonal: the off-diagonal entry is twice the mean, not the mean. *)
Theorem distances_ii_2x2_offdiagonal_is_twice_the_mean :
  avg_wasserstein2_dist (column Z223 0) (column Z223 1) = Ok (div (of_Z 5) (of_Z 2)) /\
  match distances "ii" Z223 (ones 2 2) with
  | Ok D => to_rows D = [[inf; of_Z 5]; [of_Z 5; inf]]
  | Raise _ => False
  end /\
  of_Z 5 <> div (of_Z 5) (of_Z 2).
Proof.
  split; [vm_compute; reflexivity|]. split; [vm_compute; reflexivity|].
  vm_compute. discriminate.
Qed.

Lemma distances_uu_entries Z M :
  shape_ok Z M = true ->
  exists D, distances "uu" Z M = Ok D /\
    f_rows D = t_N Z /\ f_cols D = t_N Z /\
    forall a b, a <> b ->
      f_at D a b = clip0 (add (uu_pair_samples_then_columns Z M a b)
                              (uu_pair_samples_then_columns Z M b a)).
Proof.
  unfold shape_ok, distances, set_nan_where. intros H.
  apply andb_prop in H as [H Hd]. rewrite H. cbn [bind].
  apply Nat.eqb_eq in Hd.
  unfold reshape3. cbn [t_N t_T t_n t_d]. rewrite Hd, Nat.mul_1_r, Nat.eqb_refl.
  simpl. eexists. split; [reflexivity|]. simpl. split; [reflexivity|]. split; [reflexivity|].
  intros a b Hab. apply Nat.eqb_neq in Hab. rewrite Hab.
  unfold uu_pair_samples_then_columns, observed.
  f_equal. f_equal.
  - f_equal. apply tabulate_ext. intros t. f_equal. apply tabulate_ext. intros s.
    destruct (i_at M a t =? 1), (i_at M b t =? 1); reflexivity.
  - f_equal. apply tabulate_ext. intros t. f_equal. apply tabulate_ext. intros s.
    destruct (i_at M a t =? 1), (i_at M b t =? 1); reflexivity.
Qed.

(** C8, as amended. Mode "uu" on [(Z, M)] returns what mode "ii" returns
    on the tensor with rows and columns exchanged and [M] transposed (the
    same exception, or matrices of the same shape and entries); the
    distance of two rows, before the transpose is added, averages the
    squared differences over the samples and then over the columns. *)
Theorem distances_uu_is_ii_transposed Z M :
  result_rel fm_eq (distances "uu" Z M)
                   (distances "ii" (swap_rows_cols Z) (itranspose M)) /\
  (shape_ok Z M = true ->
   exists D, distances "uu" Z M = Ok D /\
     forall a b, (a < t_N Z)%nat -> (b < t_N Z)%nat -> a <> b ->
       f_at D a b = clip0 (add (uu_pair_samples_then_columns Z M a b)
                               (uu_pair_samples_then_columns Z M b a))).
Proof.
  split.
  - unfold distances, set_nan_where. simpl.
    rewrite (andb_comm (i_cols M =? t_T Z)%nat).
    destruct ((i_rows M =? t_N Z)%nat && (i_cols M =? t_T Z)%nat); simpl; [|reflexivity].
    unfold reshape3. simpl.
    rewrite (Nat.mul_comm (t_T Z) (t_N Z)).
    destruct (_ =? _)%nat; simpl; [|reflexivity].
    split; [reflexivity|]. split; [reflexivity|]. intros a b _ _. reflexivity.
  - intros H. destruct (distances_uu_entries Z M H) as [D [HD [_ [_ HE]]]].
    exists D. split; [exact HD|]. intros a b _ _. apply HE.
Qed.

Lemma distances_uu_is_ii_transposed_witness :
  exists D, distances "uu" Z_gap (ones 2 2) = Ok D /\
     forall a b, (a < t_N Z_gap)%nat -> (b < t_N Z_gap)%nat -> a <> b ->
       f_at D a b = clip0 (add (uu_pair_samples_then_columns Z_gap (ones 2 2) a b)
                               (uu_pair_samples_then_columns Z_gap (ones 2 2) b a)).
Proof.
  apply (proj2 (distances_uu_is_ii_transposed Z_gap (ones 2 2))). reflexivity.
Defined.

(** C8 as stated fails on [Z_gap]: averaging over the samples and then
    the columns gives 3 for rows 0 and 1 and the entry 6 that mode "uu"
    returns; averaging over the columns and then the samples gives 5, and
    10 once the transpose is added. *)
Lemma distances_uu_not_columns_then_samples :
  exists D, distances "uu" Z_gap (ones 2 2) = Ok D /\
    f_at D 0%nat 1%nat = of_Z 6 /\
    uu_pair_samples_then_columns Z_gap (ones 2 2) 0 1 = of_Z 3 /\
    uu_pair_columns_then_samples Z_gap (ones 2 2) 0 1 = of_Z 5 /\
    clip0 (add (uu_pair_columns_then_samples Z_gap (ones 2 2) 0 1)
               (uu_pair_columns_then_samples Z_gap (ones 2 2) 1 0)) = of_Z 10 /\
    f_at D 0%nat 1%nat <> uu_pair_columns_then_samples Z_gap (ones 2 2) 0 1 /\
    f_at D 0%nat 1%nat <>
    clip0 (add (uu_pair_columns_then_samples Z_gap (ones 2 2) 0 1)
               (uu_pair_columns_then_samples Z_gap (ones 2 2) 1 0)).
Proof.
  eexists. split; [reflexivity|].
  repeat (split; [vm_compute; reflexivity|]).
  split; vm_compute; discriminate.
Qed.

(** * [estimate] *)

(** With arguments that fit together, the body of the loop computes its
    three values for the index without raising. *)
Lemma estimate_at_returns nn_type Z M dists eta i j :
  call_ok nn_type Z M dists i j = true ->
  exists r, estimate_at nn_type Z M (le_scalar dists eta) i j = Ok r.
Proof.
  unfold call_ok. intros H.
  repeat (apply andb_prop in H as [H ?]).
  repeat match goal with
         | E : (_ =? _)%nat = true |- _ => apply Nat.eqb_eq in E
         end.
  destruct (norm_index_ok (t_N Z) i) as [ri [Hi Hri]]; try assumption.
  destruct (norm_index_ok (t_T Z) j) as [rj [Hj Hrj]]; try assumption.
  unfold estimate_at.
  destruct (nn_type =? "ii")%string;
    match goal with
    | E : _ && _ = true |- _ => apply andb_prop in E as [Er Ec];
        apply Nat.eqb_eq in Er; apply Nat.eqb_eq in Ec
    end.
  - unfold brow, irow, take_row_mask. simpl b_rows. simpl b_cols.
    rewrite Er, Hj. simpl bind.
    rewrite H, Hi. simpl bind.
    rewrite length_tabulate, Ec, Nat.eqb_refl. cbn [bind].
    match goal with |- context [if ?c then _ else _] => destruct c end; [|eauto].
    match goal with |- context [broadcast2 ?f ?xs ?ys] =>
      destruct (broadcast2_same_length f xs ys) as [l ->] end; [|simpl; eauto].
    rewrite !length_tabulate. congruence.
  - unfold brow, icol, take_mask_col. simpl b_rows. simpl b_cols.
    rewrite Er, Hi. simpl bind.
    match goal with E : i_cols M = _ |- _ => rewrite E end. rewrite Hj. simpl bind.
    rewrite length_tabulate, Ec, Nat.eqb_refl. cbn [bind].
    match goal with |- context [if ?c then _ else _] => destruct c end; [|eauto].
    match goal with |- context [broadcast2 ?f ?xs ?ys] =>
      destruct (broadcast2_same_length f xs ys) as [l ->] end; [|simpl; eauto].
    rewrite !length_tabulate. congruence.
Qed.

(** The count the loop computes for an index: the number of true entries
    in its row of the neighbourhood table, or zero when the gathered
    array has no element. *)
Lemma estimate_at_count nn_type Z M nb i j r :
  estimate_at nn_type Z M nb i j = Ok r ->
  exists k, norm_index (b_rows nb) (if (nn_type =? "ii")%string then j else i) = Ok k /\
    nn_count_rc r =
      (let c := length (nonzero (tabulate (b_cols nb) (fun t => b_at nb k t))) in
       if (0 <? c * t_n Z * t_d Z)%nat then c else 0%nat).
Proof.
  unfold estimate_at.
  destruct (nn_type =? "ii")%string.
  - unfold brow. destruct (norm_index (b_rows nb) j) as [k|e]; cbn [bind]; [|discriminate].
    destruct (irow M i) as [msk|e]; cbn [bind]; [|discriminate].
    unfold take_row_mask.
    destruct (norm_index (t_N Z) i) as [ri|e]; cbn [bind]; [|discriminate].
    destruct (_ =? t_T Z)%nat; cbn [bind]; [|discriminate].
    unfold size; cbn [c_k c_n c_d].
    intros H. exists k. split; [reflexivity|]. cbv zeta.
    destruct (0 <? _)%nat.
    + destruct (broadcast2 _ _ _) as [both|e]; cbn [bind] in H; [|discriminate].
      inversion H; reflexivity.
    + inversion H; reflexivity.
  - unfold brow. destruct (norm_index (b_rows nb) i) as [k|e]; cbn [bind]; [|discriminate].
    destruct (icol M j) as [msk|e]; cbn [bind]; [|discriminate].
    unfold take_mask_col.
    destruct (_ =? t_N Z)%nat; cbn [bind]; [|discriminate].
    destruct (norm_index (t_T Z) j) as [rj|e]; cbn [bind]; [|discriminate].
    unfold size; cbn [c_k c_n c_d].
    intros H. exists k. split; [reflexivity|]. cbv zeta.
    destruct (0 <? _)%nat.
    + destruct (broadcast2 _ _ _) as [both|e]; cbn [bind] in H; [|discriminate].
      inversion H; reflexivity.
    + inversion H; reflexivity.
Qed.



(** C1. With the threshold 0.0, below every distance of [D223], the loop
    computes the sentinel of three negative infinities and the count zero
    for the index (0, 0), and the call of [estimate] raises [TypeError]
    instead of returning them. *)
Theorem estimate_empty_neighborhood_raises_TypeError :
  estimate_at "ii" Z223 (ones 2 2) (le_scalar D223 zero) 0 0
    = Ok (mk_cell_estimate [neg_inf; neg_inf; neg_inf] 0 None) /\
  estimate "ii" Z223 (ones 2 2) zero [(0, 0)] D223 true = Raise TypeError /\
  estimate "ii" Z223 (ones 2 2) zero [(0, 0)] D223 false = Raise TypeError.
Proof. repeat split; vm_compute; reflexivity. Qed.

(** C2. The cell (0, 1) is masked ([M = 0]) and is the only neighbour of
    column 0; the estimate computed for the index (0, 0) is the content
    of that cell, and changes with it, although the two tensors agree on
    every observed cell. *)
Theorem estimate_averages_masked_cell :
  i_at M_masked 0 1 = 0 /\
  (forall i t s c, i_at M_masked i t = 1 ->
     t_at (Z_masked 7) i t s c = t_at (Z_masked 9) i t s c) /\
  exists r7 r9,
    estimate_at "ii" (Z_masked 7) M_masked (le_scalar D_near zero) 0 0 = Ok r7 /\
    estimate_at "ii" (Z_masked 9) M_masked (le_scalar D_near zero) 0 0 = Ok r9 /\
    est r7 = [of_Z 7] /\ est r9 = [of_Z 9] /\ est r7 <> est r9.
Proof.
  split; [reflexivity|]. split.
  - intros i t s c. unfold M_masked, Z_masked. simpl.
    destruct (t =? 0)%nat; [reflexivity | discriminate].
  - eexists. eexists. split; [vm_compute; reflexivity|].
    split; [vm_compute; reflexivity|].
    split; [vm_compute; reflexivity|]. split; [vm_compute; reflexivity|].
    vm_compute. discriminate.
Qed.




Section EtaMonotone.

Variable dists : fmatrix.
Variables eta1 eta2 : float.
Hypothesis eta_lt : ltb eta1 eta2 = true.

Lemma neighborhoods_monotone a b :
  b_at (le_scalar dists eta1) a b = true -> b_at (le_scalar dists eta2) a b = true.
Proof. simpl. intros Hle. exact (leb_ltb_trans _ _ _ Hle eta_lt). Qed.

Lemma nn_count_monotone nn_type Z M i j r1 r2 :
  estimate_at nn_type Z M (le_scalar dists eta1) i j = Ok r1 ->
  estimate_at nn_type Z M (le_scalar dists eta2) i j = Ok r2 ->
  (nn_count_rc r1 <= nn_count_rc r2)%nat.
Proof.
  intros H1 H2.
  destruct (estimate_at_count _ _ _ _ _ _ _ H1) as [k1 [K1 C1]].
  destruct (estimate_at_count _ _ _ _ _ _ _ H2) as [k2 [K2 C2]].
  cbn [b_rows le_scalar] in K1, K2. rewrite K1 in K2. inversion K2; subst k2.
  rewrite C1, C2. cbv zeta. cbn [b_cols le_scalar].
  rewrite !length_nonzero_tabulate.
  pose proof (length_filter_mono
                (fun t => b_at (le_scalar dists eta1) k1 t)
                (fun t => b_at (le_scalar dists eta2) k1 t)
                (seq 0 (f_cols dists)) (fun t => neighborhoods_monotone k1 t)) as Hle.
  set (c1 := length (filter (fun t => b_at (le_scalar dists eta1) k1 t) _)) in *.
  set (c2 := length (filter (fun t => b_at (le_scalar dists eta2) k1 t) _)) in *.
  destruct (Nat.ltb_spec 0 (c1 * t_n Z * t_d Z));
    destruct (Nat.ltb_spec 0 (c2 * t_n Z * t_d Z)); try lia. nia.
Qed.

End EtaMonotone.

(** C7. For thresholds [eta1 < eta2], every entry of the neighbourhood
    table at [eta1] is an entry of the table at [eta2]; the counts the
    loop computes for an index at the two thresholds are ordered
    accordingly, and both are computed whenever the arguments fit
    together. *)
Theorem neighborhood_and_count_monotone_in_eta dists eta1 eta2 :
  ltb eta1 eta2 = true ->
  (forall a b, b_at (le_scalar dists eta1) a b = true ->
               b_at (le_scalar dists eta2) a b = true) /\
  (forall nn_type Z M i j r1 r2,
     estimate_at nn_type Z M (le_scalar dists eta1) i j = Ok r1 ->
     estimate_at nn_type Z M (le_scalar dists eta2) i j = Ok r2 ->
     (nn_count_rc r1 <= nn_count_rc r2)%nat) /\
  (forall nn_type Z M i j,
     call_ok nn_type Z M dists i j = true ->
     exists r1 r2,
       estimate_at nn_type Z M (le_scalar dists eta1) i j = Ok r1 /\
       estimate_at nn_type Z M (le_scalar dists eta2) i j = Ok r2 /\
       (nn_count_rc r1 <= nn_count_rc r2)%nat).
Proof.
  intros H.
  split; [exact (neighborhoods_monotone dists eta1 eta2 H)|].
  split; [exact (nn_count_monotone dists eta1 eta2 H)|].
  intros nn_type Z M i j Hok.
  destruct (estimate_at_returns _ _ _ _ eta1 _ _ Hok) as [r1 H1].
  destruct (estimate_at_returns _ _ _ _ eta2 _ _ Hok) as [r2 H2].
  exists r1, r2. repeat split; try assumption.
  exact (nn_count_monotone dists eta1 eta2 H _ _ _ _ _ _ _ H1 H2).
Qed.

Lemma neighborhood_monotone_witness :
  exists r1 r2,
    estimate_at "ii" Z223 (ones 2 2) (le_scalar D223 zero) 0 1 = Ok r1 /\
    estimate_at "ii" Z223 (ones 2 2) (le_scalar D223 (of_Z 7)) 0 1 = Ok r2 /\
    (nn_count_rc r1 <= nn_count_rc r2)%nat.
Proof.
  apply (proj2 (proj2 (neighborhood_and_count_monotone_in_eta D223 zero (of_Z 7) eq_refl))
           "ii"%string Z223 (ones 2 2) 0 1).
  vm_compute. reflexivity.
Defined.

(** * [avg_error] and [wasserstein2_dist] *)

(** C9. [avg_error] does not read its argument [inds]: any two values of
    it, [None] included, give the same result. *)
Theorem avg_error_ignores_inds ests truth inds1 inds2 :
  avg_error ests truth inds1 = avg_error ests truth inds2.
Proof. reflexivity. Qed.

Lemma wasserstein2_dist_sym Y_i Y_j :
  wasserstein2_dist Y_i Y_j = wasserstein2_dist Y_j Y_i.
Proof.
  unfold wasserstein2_dist.
  rewrite broadcast2_flip.
  rewrite (broadcast2_ext _ (fun a b => square (sub a b))); [reflexivity|].
  intros a b. apply square_sub_comm.
Qed.

(** The squared difference of a value with itself is [0.0], or
    not-a-number for an infinity. *)
Lemma square_sub_self y :
  isnan y = false ->
  square (sub y y) = if isfinite y then zero else nan.
Proof.
  unfold square, mul, sub. destruct y as [s|s| |s m e]; simpl; try discriminate; intros _.
  - destruct s; reflexivity.
  - destruct s; reflexivity.
  - rewrite Z.sub_diag. reflexivity.
Qed.

Lemma fold_add_zero l :
  Forall (fun x => x = zero) l -> fold_left add l zero = zero.
Proof.
  induction 1 as [|x l Hx _ IH]; simpl; [reflexivity|]. subst x. exact IH.
Qed.

Lemma sum_zeros l : Forall (fun x => x = zero) l -> sum l = zero.
Proof.
  intros H. destruct H as [|x l Hx Hl]; simpl; [reflexivity|].
  subst x. apply fold_add_zero, Hl.
Qed.

Lemma self_sq_replace Y :
  forallb (fun y => negb (isnan y)) Y = true ->
  Forall (fun x => x = zero) (replace_nan (map (fun y => square (sub y y)) Y)).
Proof.
  induction Y as [|y Y IH]; simpl; intros H; [constructor|].
  apply andb_prop in H as [Hy HY]. apply negb_true_iff in Hy.
  constructor; [|apply IH, HY].
  rewrite square_sub_self by exact Hy. destruct (isfinite y); reflexivity.
Qed.

Lemma self_sq_count Y :
  forallb (fun y => negb (isnan y)) Y = true ->
  existsb isfinite Y = true ->
  (0 < count_not_nan (map (fun y => square (sub y y)) Y))%nat.
Proof.
  unfold count_not_nan.
  induction Y as [|y Y IH]; simpl; intros H E; [discriminate|].
  apply andb_prop in H as [Hy HY]. apply negb_true_iff in Hy.
  rewrite square_sub_self by exact Hy.
  destruct (isfinite y); simpl in *; [lia|]. apply IH; assumption.
Qed.

(** C10, as amended. [wasserstein2_dist] is symmetric in its two
    arguments, and the distance of a vector to itself is [0.0] when the
    vector has no not-a-number entry and at least one finite entry. *)
Theorem wasserstein2_dist_symmetric_and_zero_on_equal :
  (forall Y_i Y_j, wasserstein2_dist Y_i Y_j = wasserstein2_dist Y_j Y_i) /\
  (forall Y, forallb (fun y => negb (isnan y)) Y = true ->
             existsb isfinite Y = true ->
             wasserstein2_dist Y Y = Ok zero).
Proof.
  split; [exact wasserstein2_dist_sym|].
  intros Y Hn Hf. unfold wasserstein2_dist.
  rewrite broadcast2_self. simpl. f_equal. unfold nanmean.
  rewrite (sum_zeros _ (self_sq_replace Y Hn)).
  apply div_zero_of_nat, self_sq_count; assumption.
Qed.

Lemma wasserstein2_dist_witness :
  wasserstein2_dist [of_Z 3; inf] [of_Z 3; inf] = Ok zero.
Proof.
  apply (proj2 wasserstein2_dist_symmetric_and_zero_on_equal [of_Z 3; inf]);
    reflexivity.
Defined.

(** C10 as stated fails on the vector [[inf]], which has no not-a-number
    entry: [inf - inf] is not-a-number, the mean has nothing to average
    and the distance of the vector to itself is not-a-number. *)
Lemma wasserstein2_dist_equal_infinite_is_nan :
  forallb (fun y => negb (isnan y)) [inf] = true /\
  wasserstein2_dist [inf] [inf] = Ok nan /\
  wasserstein2_dist [inf] [inf] <> Ok zero.
Proof.
  split; [reflexivity|]. split; [reflexivity|]. vm_compute. discriminate.
Qed.

(** * Signs: squares, sums and means are never negative *)

Lemma shr_1_nonneg mrs : 0 <= shr_m mrs -> 0 <= shr_m (shr_1 mrs).
Proof.
  destruct mrs as [m r s]; cbn [shr_m]. intros H.
  destruct m as [|p|p]; [| |lia]; cbn [shr_1]; [cbn; lia|].
  destruct p; cbn [shr_m]; lia.
Qed.

Lemma iter_shr_1_nonneg n : forall mrs,
  0 <= shr_m mrs -> 0 <= shr_m (iter_pos shr_1 n mrs).
Proof.
  induction n as [n IH|n IH|]; intros mrs H; cbn [iter_pos].
  - apply IH, IH, shr_1_nonneg, H.
  - apply IH, IH, H.
  - apply shr_1_nonneg, H.
Qed.

Lemma shr_fexp_nonneg m e l :
  0 <= m -> 0 <= shr_m (fst (shr_fexp prec emax m e l)).
Proof.
  intros H. unfold shr_fexp, shr.
  destruct (fexp prec emax (Zdigits2 m + e) - e); cbn [fst];
    try (rewrite shr_record_of_loc_m; exact H).
  apply iter_shr_1_nonneg. rewrite shr_record_of_loc_m. exact H.
Qed.

Lemma round_nearest_even_nonneg m l : 0 <= m -> 0 <= round_nearest_even m l.
Proof.
  intros H. destruct l as [|[| |]]; cbn [round_nearest_even]; try lia.
  destruct (Z.even m); lia.
Qed.

Lemma binary_round_aux_sign s m e l :
  0 <= m -> has_sign s (binary_round_aux prec emax s m e l) = true.
Proof.
  intros H. unfold binary_round_aux.
  pose proof (shr_fexp_nonneg m e l H) as H1.
  destruct (shr_fexp prec emax m e l) as [mrs' e']. cbn [fst] in H1.
  pose proof (shr_fexp_nonneg _ e' loc_Exact
                (round_nearest_even_nonneg _ (loc_of_shr_record mrs') H1)) as H2.
  destruct (shr_fexp prec emax _ e' loc_Exact) as [mrs'' e'']. cbn [fst] in H2.
  destruct (shr_m mrs'') as [|p|p]; [| |lia].
  - cbn. apply eqb_reflx.
  - destruct (e'' <=? emax - prec); cbn; apply eqb_reflx.
Qed.

Lemma binary_round_sign s m e : has_sign s (binary_round prec emax s m e) = true.
Proof.
  unfold binary_round. destruct (shl_align _ _ _) as [mz ez].
  apply binary_round_aux_sign. lia.
Qed.

Lemma square_nonneg x : nonneg_or_nan (square x) = true.
Proof.
  unfold nonneg_or_nan, square, mul.
  destruct x as [s|s| |s m e]; try (destruct s; reflexivity); try reflexivity.
  cbn [SFmul]. replace (xorb s s) with false by (destruct s; reflexivity).
  rewrite binary_round_aux_sign by lia. apply orb_true_r.
Qed.

Lemma add_sign x y :
  has_sign false x = true -> has_sign false y = true -> has_sign false (add x y) = true.
Proof.
  unfold add.
  destruct x as [sx|sx| |sx mx ex], y as [sy|sy| |sy my ey]; cbn [has_sign];
    try discriminate;
    try (destruct sx; try discriminate); try (destruct sy; try discriminate);
    intros _ _; try reflexivity.
  cbn [SFadd cond_Zopp]. 
  destruct (shl_align mx ex (Z.min ex ey)) as [a ?], (shl_align my ey (Z.min ex ey)) as [b ?].
  cbn [fst binary_normalize Z.add]. apply binary_round_sign.
Qed.

Lemma of_nat_sign k : has_sign false (of_nat k) = true.
Proof.
  unfold of_nat, of_Z. destruct (Z.of_nat k) eqn:E; try lia; cbn [binary_normalize].
  - reflexivity.
  - apply binary_round_sign.
Qed.

Lemma div_nonneg x y :
  has_sign false x = true -> has_sign false y = true -> nonneg_or_nan (div x y) = true.
Proof.
  unfold div, nonneg_or_nan.
  destruct x as [sx|sx| |sx mx ex], y as [sy|sy| |sy my ey]; cbn [has_sign];
    try discriminate;
    try (destruct sx; try discriminate); try (destruct sy; try discriminate);
    intros _ _; try reflexivity.
  cbn [SFdiv xorb]. unfold SFdiv_core_binary.
  set (s := _ - _ - _). set (m' := match s with Z0 => _ | Zpos _ => _ | Zneg _ => _ end).
  assert (Hm : 0 <= m').
  { subst m'. destruct s; try lia. apply Z.shiftl_nonneg. lia. }
  pose proof (Z.div_pos m' (Zpos my) Hm eq_refl) as Hq.
  unfold Z.div in Hq. destruct (Z.div_eucl m' (Zpos my)) as [q r].
  rewrite binary_round_aux_sign by exact Hq. apply orb_true_r.
Qed.

Lemma nonneg_not_lt x : nonneg_or_nan x = true -> ltb x zero = false.
Proof.
  unfold nonneg_or_nan, ltb, SFltb, zero.
  destruct x as [s|s| |s m e]; cbn; try reflexivity; destruct s; cbn; congruence.
Qed.

Lemma clip0_nonneg_id x : nonneg_or_nan x = true -> clip0 x = x.
Proof. intros H. unfold clip0. rewrite (nonneg_not_lt x H). reflexivity. Qed.

Lemma add_nonneg x y :
  nonneg_or_nan x = true -> nonneg_or_nan y = true -> nonneg_or_nan (add x y) = true.
Proof.
  unfold nonneg_or_nan. intros Hx Hy.
  destruct (isnan x) eqn:Ex; [destruct x; try discriminate; reflexivity|].
  destruct (isnan y) eqn:Ey; [destruct y; try discriminate; destruct x; reflexivity|].
  simpl in Hx, Hy. rewrite (add_sign x y Hx Hy). apply orb_true_r.
Qed.

Lemma fold_add_sign l : forall acc,
  has_sign false acc = true ->
  Forall (fun x => has_sign false x = true) l ->
  has_sign false (fold_left add l acc) = true.
Proof.
  induction l as [|x l IH]; intros acc Ha Hl; simpl; [exact Ha|].
  inversion Hl; subst. apply IH; [apply add_sign; assumption | assumption].
Qed.

Lemma sum_sign l :
  Forall (fun x => has_sign false x = true) l -> has_sign false (sum l) = true.
Proof.
  intros H. destruct H as [|x l Hx Hl]; simpl; [reflexivity|].
  apply fold_add_sign; assumption.
Qed.

Lemma replace_nan_sign l :
  Forall (fun x => nonneg_or_nan x = true) l ->
  Forall (fun x => has_sign false x = true) (replace_nan l).
Proof.
  induction 1 as [|x l Hx _ IH]; simpl; constructor; [|exact IH].
  unfold nonneg_or_nan in Hx. destruct (isnan x); [reflexivity | exact Hx].
Qed.

Lemma nanmean_nonneg l :
  Forall (fun x => nonneg_or_nan x = true) l -> nonneg_or_nan (nanmean l) = true.
Proof.
  intros H. unfold nanmean. apply div_nonneg.
  - apply sum_sign, replace_nan_sign, H.
  - apply of_nat_sign.
Qed.

(** * Further properties of [avg_error] and the distance primitives *)

Lemma Forall_tabulate {A} (P : A -> Prop) k (f : nat -> A) :
  (forall x, (x < k)%nat -> P (f x)) -> Forall P (tabulate k f).
Proof.
  intros H. unfold tabulate. apply Forall_forall. intros y Hy.
  apply in_map_iff in Hy as [x [<- Hx]]. apply in_seq in Hx. apply H. lia.
Qed.

Lemma broadcast_dim_sym a b : broadcast_dim a b = broadcast_dim b a.
Proof.
  unfold broadcast_dim.
  destruct (Nat.eqb_spec a b), (Nat.eqb_spec b a), (Nat.eqb_spec a 1), (Nat.eqb_spec b 1);
    subst; try reflexivity; try lia; congruence.
Qed.

Lemma fm_sq_diff_mean_sym A B :
  match fm_sq_diff A B, fm_sq_diff B A with
  | Ok S1, Ok S2 => nanmean_rows_then_all S1 = nanmean_rows_then_all S2
  | Raise e1, Raise e2 => e1 = e2
  | _, _ => False
  end.
Proof.
  unfold fm_sq_diff.
  rewrite (broadcast_dim_sym (f_rows B)), (broadcast_dim_sym (f_cols B)).
  destruct (broadcast_dim (f_rows A) (f_rows B)) as [r|e]; cbn [bind]; [|reflexivity].
  destruct (broadcast_dim (f_cols A) (f_cols B)) as [c|e]; cbn [bind]; [|reflexivity].
  unfold nanmean_rows_then_all. cbn [f_rows f_cols f_at].
  f_equal. apply tabulate_ext. intros a. f_equal. apply tabulate_ext. intros b.
  apply square_sub_comm.
Qed.

(** X3. [avg_error] gives the same result, exception included, with
    [ests] and [truth] exchanged. *)
Theorem avg_error_symmetric ests truth inds1 inds2 :
  avg_error ests truth inds1 = avg_error truth ests inds2.
Proof.
  unfold avg_error. pose proof (fm_sq_diff_mean_sym ests truth) as H.
  destruct (fm_sq_diff ests truth), (fm_sq_diff truth ests); cbn [bind];
    try contradiction; congruence.
Qed.

Lemma fm_sq_diff_mean_nonneg A B S :
  fm_sq_diff A B = Ok S -> nonneg_or_nan (nanmean_rows_then_all S) = true.
Proof.
  unfold fm_sq_diff.
  destruct (broadcast_dim (f_rows A) (f_rows B)) as [r|e]; cbn [bind]; [|discriminate].
  destruct (broadcast_dim (f_cols A) (f_cols B)) as [c|e]; cbn [bind]; [|discriminate].
  intros H; inversion H; subst S. unfold nanmean_rows_then_all. cbn [f_rows f_cols f_at].
  apply nanmean_nonneg, Forall_tabulate. intros a _.
  apply nanmean_nonneg, Forall_tabulate. intros b _. apply square_nonneg.
Qed.

Lemma broadcast_dim_ok_iff a b :
  (exists r, broadcast_dim a b = Ok r) <-> (a = b \/ a = 1 \/ b = 1)%nat.
Proof.
  unfold broadcast_dim.
  destruct (Nat.eqb_spec a b), (Nat.eqb_spec a 1), (Nat.eqb_spec b 1); split;
    intros H; eauto; try tauto; try lia; destruct H as [r H]; discriminate.
Qed.

Lemma broadcast_dim_error a b e : broadcast_dim a b = Raise e -> e = ValueError.
Proof.
  unfold broadcast_dim.
  destruct (a =? b)%nat, (a =? 1)%nat, (b =? 1)%nat; intros H; inversion H; reflexivity.
Qed.

(** X4. [avg_error] returns exactly when both axes of [ests] and [truth]
    broadcast (equal lengths, or one of them 1) and raises [ValueError]
    otherwise; a returned error is never below zero. *)
Theorem avg_error_result ests truth inds :
  match avg_error ests truth inds with
  | Ok x =>
      (f_rows ests = f_rows truth \/ f_rows ests = 1 \/ f_rows truth = 1)%nat /\
      (f_cols ests = f_cols truth \/ f_cols ests = 1 \/ f_cols truth = 1)%nat /\
      ltb x zero = false
  | Raise e =>
      e = ValueError /\
      ~ ((f_rows ests = f_rows truth \/ f_rows ests = 1 \/ f_rows truth = 1)%nat /\
         (f_cols ests = f_cols truth \/ f_cols ests = 1 \/ f_cols truth = 1)%nat)
  end.
Proof.
  unfold avg_error.
  destruct (fm_sq_diff ests truth) as [S|e] eqn:E; cbn [bind].
  - pose proof (fm_sq_diff_mean_nonneg _ _ _ E) as Hn.
    unfold fm_sq_diff in E.
    destruct (broadcast_dim (f_rows ests) (f_rows truth)) as [r|e] eqn:Er;
      cbn [bind] in E; [|discriminate].
    destruct (broadcast_dim (f_cols ests) (f_cols truth)) as [c|e] eqn:Ec;
      cbn [bind] in E; [|discriminate].
    split; [apply broadcast_dim_ok_iff; eauto|].
    split; [apply broadcast_dim_ok_iff; eauto|].
    apply nonneg_not_lt, Hn.
  - unfold fm_sq_diff in E.
    destruct (broadcast_dim (f_rows ests) (f_rows truth)) as [r|e'] eqn:Er;
      cbn [bind] in E.
    + destruct (broadcast_dim (f_cols ests) (f_cols truth)) as [c|e'] eqn:Ec;
        cbn [bind] in E; [discriminate|].
      inversion E; subst e'. split; [eapply broadcast_dim_error; eassumption|].
      intros [_ H]. apply broadcast_dim_ok_iff in H as [c H]. congruence.
    + inversion E; subst e'. split; [eapply broadcast_dim_error; eassumption|].
      intros [H _]. apply broadcast_dim_ok_iff in H as [c H]. congruence.
Qed.

Lemma nanmean_zero_or_nan l :
  Forall (fun x => x = zero \/ x = nan) l ->
  nanmean l = if existsb (fun x => negb (isnan x)) l then zero else nan.
Proof.
  intros H. unfold nanmean.
  assert (Hs : sum (replace_nan l) = zero).
  { apply sum_zeros. induction H as [|x l Hx _ IH]; simpl; constructor; [|exact IH].
    destruct Hx as [-> | ->]; reflexivity. }
  rewrite Hs. clear Hs.
  assert (Hc : if existsb (fun x => negb (isnan x)) l
               then (0 < count_not_nan l)%nat else count_not_nan l = 0%nat).
  { unfold count_not_nan. induction H as [|x l Hx _ IH]; simpl; [reflexivity|].
    destruct Hx as [-> | ->]; simpl; [lia | exact IH]. }
  destruct (existsb _ l).
  - apply div_zero_of_nat, Hc.
  - rewrite Hc. reflexivity.
Qed.

Lemma self_sq_zero_or_nan k (g : nat -> float) :
  (forall b, (b < k)%nat -> isnan (g b) = false) ->
  Forall (fun x => x = zero \/ x = nan) (tabulate k (fun b => square (sub (g b) (g b)))).
Proof.
  intros H. apply Forall_tabulate. intros b Hb.
  rewrite square_sub_self by (apply H, Hb). destruct (isfinite (g b)); auto.
Qed.

Lemma existsb_tabulate {A} (p : A -> bool) k (f : nat -> A) :
  existsb p (tabulate k f) = true <-> exists x, (x < k)%nat /\ p (f x) = true.
Proof.
  unfold tabulate. rewrite existsb_exists. split.
  - intros [y [Hy Hp]]. apply in_map_iff in Hy as [x [<- Hx]]. apply in_seq in Hx.
    exists x. split; [lia | exact Hp].
  - intros [x [Hx Hp]]. exists (f x). split; [|exact Hp].
    apply in_map. apply in_seq. lia.
Qed.

(** X5. The error of a matrix against itself is [0.0] when no entry is
    not-a-number and at least one entry is finite. *)
Theorem avg_error_self_zero X inds :
  (forall a b, (a < f_rows X)%nat -> (b < f_cols X)%nat -> isnan (f_at X a b) = false) ->
  (exists a b, (a < f_rows X)%nat /\ (b < f_cols X)%nat /\ isfinite (f_at X a b) = true) ->
  avg_error X X inds = Ok zero.
Proof.
  intros Hn [a0 [b0 [Ha0 [Hb0 Hf]]]].
  unfold avg_error, fm_sq_diff, broadcast_dim. rewrite !Nat.eqb_refl. cbn [bind].
  f_equal. unfold nanmean_rows_then_all. cbn [f_rows f_cols f_at].
  set (row := fun a => nanmean (tabulate (f_cols X)
                 (fun b => square (sub (f_at X a b) (f_at X a b))))).
  assert (E : tabulate (f_rows X) (fun a => nanmean (tabulate (f_cols X) (fun b =>
                square (sub (f_at X (if (f_rows X =? 1)%nat then 0%nat else a)
                                    (if (f_cols X =? 1)%nat then 0%nat else b))
                            (f_at X (if (f_rows X =? 1)%nat then 0%nat else a)
                                    (if (f_cols X =? 1)%nat then 0%nat else b))))))
              = tabulate (f_rows X) row).
  { apply tabulate_ext_in. intros a Ha. unfold row. f_equal.
    apply tabulate_ext_in. intros b Hb.
    rewrite (pick_in_range _ _ Ha), (pick_in_range _ _ Hb). reflexivity. }
  rewrite E.
  assert (Hrow : forall a, (a < f_rows X)%nat ->
            row a = if existsb (fun x => negb (isnan x))
                         (tabulate (f_cols X) (fun b => square (sub (f_at X a b) (f_at X a b))))
                    then zero else nan).
  { intros a Ha. unfold row. apply nanmean_zero_or_nan, self_sq_zero_or_nan.
    intros b Hb. apply Hn; assumption. }
  rewrite nanmean_zero_or_nan.
  - replace (existsb _ (tabulate (f_rows X) row)) with true; [reflexivity|].
    symmetry. apply existsb_tabulate. exists a0. split; [exact Ha0|].
    rewrite (Hrow a0 Ha0).
    replace (existsb _ _) with true; [reflexivity|].
    symmetry. apply existsb_tabulate. exists b0. split; [exact Hb0|].
    rewrite square_sub_self by (apply Hn; assumption). rewrite Hf. reflexivity.
  - apply Forall_tabulate. intros a Ha. rewrite (Hrow a Ha).
    destruct (existsb _ _); auto.
Qed.

Lemma avg_error_self_zero_witness :
  avg_error (full 2 3 (of_Z 4)) (full 2 3 (of_Z 4)) None = Ok zero.
Proof.
  apply avg_error_self_zero.
  - intros a b _ _. reflexivity.
  - exists 0%nat, 0%nat. repeat split; simpl; lia.
Defined.

(** X2. [avg_wasserstein2_dist] gives the same result, exception
    included, with its arguments exchanged; it raises [ValueError] only,
    and a returned distance is never below zero. *)
Theorem avg_wasserstein2_dist_symmetric_nonnegative Y_i Y_j :
  avg_wasserstein2_dist Y_i Y_j = avg_wasserstein2_dist Y_j Y_i /\
  match avg_wasserstein2_dist Y_i Y_j with
  | Ok x => ltb x zero = false
  | Raise e => e = ValueError
  end.
Proof.
  split.
  - exact (avg_error_symmetric Y_i Y_j None None).
  - pose proof (avg_error_result Y_i Y_j None) as H. unfold avg_error in H.
    unfold avg_wasserstein2_dist. destruct (fm_sq_diff Y_i Y_j); cbn [bind] in *; tauto.
Qed.

Lemma broadcast2_result {A B C} (f : A -> B -> C) xs ys :
  match broadcast2 f xs ys with
  | Ok l => (length xs = length ys \/ length xs = 1 \/ length ys = 1)%nat /\
            forall z, In z l -> exists x y, In x xs /\ In y ys /\ z = f x y
  | Raise e => e = ValueError /\
               ~ (length xs = length ys \/ length xs = 1 \/ length ys = 1)%nat
  end.
Proof.
  unfold broadcast2. destruct (Nat.eqb_spec (length xs) (length ys)) as [E|E].
  - split; [auto|]. intros z Hz. apply in_map_iff in Hz as [[x y] [<- Hp]].
    exists x, y. split; [eapply in_combine_l; eassumption|].
    split; [eapply in_combine_r; eassumption | reflexivity].
  - destruct xs as [|x [|x' xs]], ys as [|y [|y' ys]];
      cbn [length] in *; cbv beta iota; try lia;
      try (split; [reflexivity | lia]);
      (split; [auto|]); intros z Hz.
    all: apply in_map_iff in Hz as [w [<- Hw]].
    all: first [ exists x, w; simpl; solve [auto] | exists w, y; simpl; solve [auto] ].
Qed.

(** X1. [wasserstein2_dist] raises exactly when the two vectors cannot be
    broadcast (different lengths, neither of them 1), the exception is
    [ValueError], and a returned distance is never below zero. *)
Theorem wasserstein2_dist_result Y_i Y_j :
  match wasserstein2_dist Y_i Y_j with
  | Ok x => (length Y_i = length Y_j \/ length Y_i = 1 \/ length Y_j = 1)%nat /\
            ltb x zero = false
  | Raise e => e = ValueError /\
               ~ (length Y_i = length Y_j \/ length Y_i = 1 \/ length Y_j = 1)%nat
  end.
Proof.
  unfold wasserstein2_dist.
  pose proof (broadcast2_result (fun a b => square (sub a b)) Y_i Y_j) as H.
  destruct (broadcast2 _ Y_i Y_j) as [l|e]; cbn [bind]; [|exact H].
  destruct H as [Hl Hz]. split; [exact Hl|].
  apply nonneg_not_lt, nanmean_nonneg, Forall_forall. intros z Hin.
  destruct (Hz z Hin) as [x [y [_ [_ ->]]]]. apply square_nonneg.
Qed.

(** * Further properties of [distances] *)

Lemma ii_pair_sym Z M a b :
  ii_pair_samples_then_rows Z M a b = ii_pair_samples_then_rows Z M b a.
Proof.
  unfold ii_pair_samples_then_rows. f_equal. apply tabulate_ext. intros i.
  f_equal. apply tabulate_ext. intros s. apply square_sub_comm.
Qed.

Lemma uu_pair_sym Z M a b :
  uu_pair_samples_then_columns Z M a b = uu_pair_samples_then_columns Z M b a.
Proof.
  unfold uu_pair_samples_then_columns. f_equal. apply tabulate_ext. intros i.
  f_equal. apply tabulate_ext. intros s. apply square_sub_comm.
Qed.

Lemma ii_pair_nonneg Z M a b : nonneg_or_nan (ii_pair_samples_then_rows Z M a b) = true.
Proof.
  apply nanmean_nonneg, Forall_tabulate. intros i _.
  apply nanmean_nonneg, Forall_tabulate. intros s _. apply square_nonneg.
Qed.

Lemma uu_pair_nonneg Z M a b : nonneg_or_nan (uu_pair_samples_then_columns Z M a b) = true.
Proof.
  apply nanmean_nonneg, Forall_tabulate. intros i _.
  apply nanmean_nonneg, Forall_tabulate. intros s _. apply square_nonneg.
Qed.

Lemma distances_ii_raw Z M :
  shape_ok Z M = true ->
  exists D, distances "ii" Z M = Ok D /\
    f_rows D = t_T Z /\ f_cols D = t_T Z /\
    forall a b, a <> b ->
      f_at D a b = clip0 (add (ii_pair_samples_then_rows Z M a b)
                              (ii_pair_samples_then_rows Z M b a)).
Proof.
  unfold shape_ok, distances, set_nan_where. intros H.
  apply andb_prop in H as [H Hd]. rewrite H. cbn [bind].
  apply Nat.eqb_eq in Hd.
  unfold reshape3. cbn [t_N t_T t_n t_d]. rewrite Hd, Nat.mul_1_r, Nat.eqb_refl.
  simpl. eexists. split; [reflexivity|]. simpl. split; [reflexivity|]. split; [reflexivity|].
  intros a b Hab. apply Nat.eqb_neq in Hab. rewrite Hab.
  unfold ii_pair_samples_then_rows, observed.
  f_equal. f_equal.
  - f_equal. apply tabulate_ext. intros t. f_equal. apply tabulate_ext. intros s.
    destruct (i_at M t a =? 1), (i_at M t b =? 1); reflexivity.
  - f_equal. apply tabulate_ext. intros t. f_equal. apply tabulate_ext. intros s.
    destruct (i_at M t a =? 1), (i_at M t b =? 1); reflexivity.
Qed.

(** X7. In mode "ii" the entry for two different columns is [p + p],
    where [p] averages the squared differences of the observed cells
    over the samples and then over the rows: both triangles are filled
    before the transpose is added, and clipping at zero changes
    nothing. *)
Theorem distances_ii_entries Z M :
  shape_ok Z M = true ->
  exists D, distances "ii" Z M = Ok D /\
    f_rows D = t_T Z /\ f_cols D = t_T Z /\
    forall a b, a <> b ->
      f_at D a b = add (ii_pair_samples_then_rows Z M a b)
                       (ii_pair_samples_then_rows Z M a b).
Proof.
  intros H. destruct (distances_ii_raw Z M H) as [D [HD [Hr [Hc HE]]]].
  exists D. repeat split; try assumption. intros a b Hab.
  rewrite (HE a b Hab), (ii_pair_sym Z M b a).
  apply clip0_nonneg_id, add_nonneg; apply ii_pair_nonneg.
Qed.

(** X8. In mode "uu" the entry for two different rows is [p + p], where
    [p] averages the squared differences of the observed cells over the
    samples and then over the columns; clipping at zero changes
    nothing. *)
Theorem distances_uu_entries_twice Z M :
  shape_ok Z M = true ->
  exists D, distances "uu" Z M = Ok D /\
    f_rows D = t_N Z /\ f_cols D = t_N Z /\
    forall a b, a <> b ->
      f_at D a b = add (uu_pair_samples_then_columns Z M a b)
                       (uu_pair_samples_then_columns Z M a b).
Proof.
  intros H. destruct (distances_uu_entries Z M H) as [D [HD [Hr [Hc HE]]]].
  exists D. repeat split; try assumption. intros a b Hab.
  rewrite (HE a b Hab), (uu_pair_sym Z M b a).
  apply clip0_nonneg_id, add_nonneg; apply uu_pair_nonneg.
Qed.

Lemma nanmean_all_nan l : Forall (fun x => x = nan) l -> nanmean l = nan.
Proof.
  intros H. rewrite nanmean_zero_or_nan.
  - replace (existsb _ l) with false; [reflexivity|].
    symmetry. induction H as [|x l -> _ IH]; simpl; [reflexivity | exact IH].
  - eapply Forall_impl; [|exact H]. intros x ->. auto.
Qed.

Lemma sub_nan_r x : sub x nan = nan.
Proof. destruct x; reflexivity. Qed.

(** X9. In mode "ii", two different columns that are observed together
    in no row have the distance not-a-number, and the pair passes the
    test [dists <= eta] for no threshold, the infinite one included. *)
Theorem distances_ii_nan_without_joint_observation Z M a b :
  shape_ok Z M = true ->
  a <> b ->
  (forall i, (i < t_N Z)%nat -> i_at M i a <> 1 \/ i_at M i b <> 1) ->
  exists D, distances "ii" Z M = Ok D /\
    f_at D a b = nan /\
    forall eta, b_at (le_scalar D eta) a b = false.
Proof.
  intros H Hab Hm. destruct (distances_ii_entries Z M H) as [D [HD [_ [_ HE]]]].
  exists D. split; [exact HD|].
  assert (Hp : ii_pair_samples_then_rows Z M a b = nan).
  { unfold ii_pair_samples_then_rows. apply nanmean_all_nan, Forall_tabulate.
    intros i Hi. apply nanmean_all_nan, Forall_tabulate. intros s _.
    unfold observed. destruct (Hm i Hi) as [Hn|Hn]; apply Z.eqb_neq in Hn; rewrite Hn.
    - reflexivity.
    - rewrite sub_nan_r. reflexivity. }
  assert (HD' : f_at D a b = nan) by (rewrite (HE a b Hab), Hp; reflexivity).
  split; [exact HD'|]. intros eta. cbn [b_at le_scalar]. rewrite HD'. reflexivity.
Qed.

Lemma distances_ii_nan_witness :
  exists D, distances "ii" Z223 M_col_masked = Ok D /\
    f_at D 0 1 = nan /\
    forall eta, b_at (le_scalar D eta) 0%nat 1%nat = false.
Proof.
  apply (distances_ii_nan_without_joint_observation Z223 M_col_masked 0 1).
  - reflexivity.
  - discriminate.
  - intros i _. right. discriminate.
Defined.

Lemma distances_ii_entries_witness :
  exists D, distances "ii" Z223 (ones 2 2) = Ok D /\
    f_rows D = t_T Z223 /\ f_cols D = t_T Z223 /\
    forall a b, a <> b ->
      f_at D a b = add (ii_pair_samples_then_rows Z223 (ones 2 2) a b)
                       (ii_pair_samples_then_rows Z223 (ones 2 2) a b).
Proof. apply (distances_ii_entries Z223 (ones 2 2)). reflexivity. Defined.

Lemma distances_uu_entries_twice_witness :
  exists D, distances "uu" Z223 (ones 2 2) = Ok D /\
    f_rows D = t_N Z223 /\ f_cols D = t_N Z223 /\
    forall a b, a <> b ->
      f_at D a b = add (uu_pair_samples_then_columns Z223 (ones 2 2) a b)
                       (uu_pair_samples_then_columns Z223 (ones 2 2) a b).
Proof. apply (distances_uu_entries_twice Z223 (ones 2 2)). reflexivity. Defined.

(** X10. [distances] reads the cells with [M = 1] only: two tensors of
    one shape that agree on those cells give the same result. *)
Theorem distances_ignores_masked_cells nn_type Z Z' M :
  t_N Z = t_N Z' -> t_T Z = t_T Z' -> t_n Z = t_n Z' -> t_d Z = t_d Z' ->
  (forall i t s c, (i < t_N Z)%nat -> (t < t_T Z)%nat -> (s < t_n Z)%nat -> (c < t_d Z)%nat ->
     i_at M i t = 1 -> t_at Z i t s c = t_at Z' i t s c) ->
  result_rel fm_eq (distances nn_type Z M) (distances nn_type Z' M).
Proof.
  destruct Z as [N T n d f], Z' as [N' T' n' d' f']. cbn [t_N t_T t_n t_d t_at].
  intros <- <- <- <- Hf.
  assert (Hcell : (N * T * n * d = N * T * n)%nat ->
            forall i t s, (i < N)%nat -> (t < T)%nat -> (s < n)%nat ->
            (if negb (i_at M i t =? 1) then nan else f i t s 0%nat)
            = (if negb (i_at M i t =? 1) then nan else f' i t s 0%nat)).
  { intros Hd i t s Hi Ht Hs.
    destruct (Z.eqb_spec (i_at M i t) 1) as [E|E]; cbn; [|reflexivity].
    apply Hf; try assumption.
    destruct d as [|d']; [|lia]. rewrite Nat.mul_0_r in Hd.
    assert (0 < N * T * n)%nat by (repeat apply Nat.mul_pos_pos; lia). lia. }
  unfold distances, set_nan_where. cbn [t_N t_T t_n t_d t_at].
  destruct ((i_rows M =? N)%nat && (i_cols M =? T)%nat); cbn [bind result_rel];
    [|reflexivity].
  unfold reshape3. cbn [t_N t_T t_n t_d t_at].
  destruct (nn_type =? "ii")%string.
  - destruct (Nat.eqb_spec (N * T * n * d) (N * T * n)) as [Hd|Hd];
      cbn [bind result_rel]; [|reflexivity].
    split; [reflexivity|]. split; [reflexivity|]. cbn. intros a b Ha Hb.
    destruct (a =? b)%nat; [reflexivity|].
    f_equal. f_equal; f_equal; apply tabulate_ext_in; intros i Hi; f_equal;
      apply tabulate_ext_in; intros s Hs; rewrite !(Hcell Hd) by assumption; reflexivity.
  - destruct (nn_type =? "uu")%string.
    + destruct (Nat.eqb_spec (N * T * n * d) (N * T * n)) as [Hd|Hd];
        cbn [bind result_rel]; [|reflexivity].
      split; [reflexivity|]. split; [reflexivity|]. cbn. intros a b Ha Hb.
      destruct (a =? b)%nat; [reflexivity|].
      f_equal. f_equal; f_equal; apply tabulate_ext_in; intros i Hi; f_equal;
        apply tabulate_ext_in; intros s Hs; rewrite !(Hcell Hd) by assumption; reflexivity.
    + cbn. split; [reflexivity|]. split; [reflexivity|]. intros a b _ _. reflexivity.
Qed.

Lemma distances_ignores_masked_cells_witness :
  result_rel fm_eq (distances "ii" (Z_masked 7) M_masked) (distances "ii" (Z_masked 9) M_masked).
Proof.
  apply (distances_ignores_masked_cells "ii" (Z_masked 7) (Z_masked 9) M_masked);
    try reflexivity.
  intros i t s c _ _ _ _. unfold M_masked, Z_masked. cbn.
  destruct (t =? 0)%nat; [reflexivity | discriminate].
Defined.


(** X11. With a mode that is neither "ii" nor "uu", [distances] raises
    nothing and returns the [N x N] matrix of zeros with an infinite
    diagonal. *)
Theorem distances_unknown_mode nn_type Z M :
  (nn_type =? "ii")%string = false -> (nn_type =? "uu")%string = false ->
  i_rows M = t_N Z -> i_cols M = t_T Z ->
  exists D, distances nn_type Z M = Ok D /\
    f_rows D = t_N Z /\ f_cols D = t_N Z /\
    forall a b, f_at D a b = if (a =? b)%nat then inf else zero.
Proof.
  intros Hi Hu Hr Hc. unfold distances, set_nan_where.
  rewrite Hr, Hc, !Nat.eqb_refl, Hi, Hu. cbn.
  eexists. split; [reflexivity|]. cbn. repeat split.
Qed.

Lemma distances_unknown_mode_witness :
  exists D, distances "item" Z223 (ones 2 2) = Ok D /\
    f_rows D = t_N Z223 /\ f_cols D = t_N Z223 /\
    forall a b, f_at D a b = if (a =? b)%nat then inf else zero.
Proof.
  apply (distances_unknown_mode "item" Z223 (ones 2 2)); reflexivity.
Defined.

(** X12. With every cell observed, the entry of mode "ii" for two
    different columns is [x + x], where [x] is what
    [avg_wasserstein2_dist] returns on the two columns. *)
Theorem distances_ii_is_twice_avg_wasserstein2_dist Z M a b :
  shape_ok Z M = true ->
  (forall i t, i_at M i t = 1) ->
  a <> b ->
  exists D x,
    distances "ii" Z M = Ok D /\
    avg_wasserstein2_dist (column Z a) (column Z b) = Ok x /\
    f_at D a b = add x x.
Proof.
  intros H HM Hab.
  destruct (distances_ii_offdiagonal_doubles Z M a b H HM Hab) as [D [x [HD [Hx HE]]]].
  exists D, x. repeat split; try assumption. rewrite HE.
  unfold avg_wasserstein2_dist in Hx.
  destruct (fm_sq_diff (column Z a) (column Z b)) as [S|e] eqn:ES; cbn [bind] in Hx;
    [|discriminate].
  inversion Hx; subst x.
  pose proof (fm_sq_diff_mean_nonneg _ _ _ ES) as Hn.
  apply clip0_nonneg_id, add_nonneg; exact Hn.
Qed.

Lemma distances_ii_is_twice_witness :
  exists D x,
    distances "ii" Z223 (ones 2 2) = Ok D /\
    avg_wasserstein2_dist (column Z223 0) (column Z223 1) = Ok x /\
    f_at D 0 1 = add x x.
Proof.
  apply (distances_ii_is_twice_avg_wasserstein2_dist Z223 (ones 2 2) 0 1).
  - reflexivity.
  - intros i t. reflexivity.
  - discriminate.
Defined.

(** * Further properties of [estimate] *)

Lemma estimate_at_inv nn_type Z M nb i j r :
  estimate_at nn_type Z M nb i j = Ok r ->
  exists k o msk,
    norm_index (b_rows nb) (if (nn_type =? "ii")%string then j else i) = Ok k /\
    (if (nn_type =? "ii")%string
     then norm_index (t_N Z) i = Ok o /\ irow M i = Ok msk /\ b_cols nb = t_T Z
     else norm_index (t_T Z) j = Ok o /\ icol M j = Ok msk /\ b_cols nb = t_N Z) /\
    let sel := nonzero (neighbor_row nb k) in
    if (0 <? length sel * t_n Z * t_d Z)%nat then
      est r = concat (tabulate (t_n Z) (fun s => tabulate (t_d Z) (fun c =>
                nanmean (tabulate (length sel) (fun a =>
                  if (nn_type =? "ii")%string
                  then t_at Z o (nth a sel 0%nat) s c
                  else t_at Z (nth a sel 0%nat) o s c))))) /\
      nn_count_rc r = length sel /\
      exists both,
        broadcast2 (fun (b : bool) m => Z.land (if b then 1 else 0) m)
          (neighbor_row nb k) msk = Ok both /\
        list_neighbors_rc r = Some (nonzero (map (fun v => negb (v =? 0)) both))
    else r = sentinel Z.
Proof.
  unfold estimate_at, neighbor_row, sentinel.
  destruct (nn_type =? "ii")%string.
  - unfold brow. destruct (norm_index (b_rows nb) j) as [k|e]; cbn [bind]; [|discriminate].
    destruct (irow M i) as [msk|e]; cbn [bind]; [|discriminate].
    unfold take_row_mask.
    destruct (norm_index (t_N Z) i) as [ri|e]; cbn [bind]; [|discriminate].
    rewrite length_tabulate.
    destruct (Nat.eqb_spec (b_cols nb) (t_T Z)) as [Ec|Ec]; cbn [bind]; [|discriminate].
    unfold size, nanmean_axis0_flat; cbn [c_k c_n c_d c_at].
    intros H. exists k, ri, msk. repeat split; try assumption. cbv zeta.
    destruct (0 <? _)%nat.
    + destruct (broadcast2 _ _ _) as [both|e]; cbn [bind] in H; [|discriminate].
      inversion H; subst r. cbn [est nn_count_rc list_neighbors_rc].
      repeat split. exists both. split; reflexivity.
    + inversion H; reflexivity.
  - unfold brow. destruct (norm_index (b_rows nb) i) as [k|e]; cbn [bind]; [|discriminate].
    destruct (icol M j) as [msk|e]; cbn [bind]; [|discriminate].
    unfold take_mask_col.
    rewrite length_tabulate.
    destruct (Nat.eqb_spec (b_cols nb) (t_N Z)) as [Ec|Ec]; cbn [bind]; [|discriminate].
    destruct (norm_index (t_T Z) j) as [rj|e]; cbn [bind]; [|discriminate].
    unfold size, nanmean_axis0_flat; cbn [c_k c_n c_d c_at].
    intros H. exists k, rj, msk. repeat split; try assumption. cbv zeta.
    destruct (0 <? _)%nat.
    + destruct (broadcast2 _ _ _) as [both|e]; cbn [bind] in H; [|discriminate].
      inversion H; subst r. cbn [est nn_count_rc list_neighbors_rc].
      repeat split. exists both. split; reflexivity.
    + inversion H; reflexivity.
Qed.

Lemma land_1_eqb m : negb (Z.land 1 m =? 0) = Z.odd m.
Proof.
  destruct m as [|p|p]; try reflexivity.
  - destruct p; reflexivity.
  - destruct p as [p|p|]; try reflexivity. destruct p; reflexivity.
Qed.

Lemma nonzero_from_map_seq (p : nat -> bool) n : forall k,
  nonzero_from k (map p (seq k n)) = filter p (seq k n).
Proof.
  induction n as [|n IH]; intros k; simpl; [reflexivity|].
  destruct (p k); rewrite IH; reflexivity.
Qed.

Lemma nonzero_tabulate n (p : nat -> bool) :
  nonzero (tabulate n p) = filter p (seq 0 n).
Proof. apply nonzero_from_map_seq. Qed.

Lemma In_nonzero_tabulate n (p : nat -> bool) t :
  In t (nonzero (tabulate n p)) <-> (t < n)%nat /\ p t = true.
Proof.
  rewrite nonzero_tabulate, filter_In, in_seq. split; intros [H1 H2]; split; auto; lia.
Qed.

Lemma combine_tabulate {A B} n (f : nat -> A) (g : nat -> B) :
  combine (tabulate n f) (tabulate n g) = tabulate n (fun t => (f t, g t)).
Proof.
  unfold tabulate. induction (seq 0 n) as [|x l IH]; simpl; [reflexivity|].
  f_equal. exact IH.
Qed.

Lemma broadcast2_tabulate {A B C} (h : A -> B -> C) n f g :
  broadcast2 h (tabulate n f) (tabulate n g) = Ok (tabulate n (fun t => h (f t) (g t))).
Proof.
  unfold broadcast2. rewrite !length_tabulate, Nat.eqb_refl, combine_tabulate.
  unfold tabulate. rewrite map_map. reflexivity.
Qed.

Lemma length_concat_tabulate {A} n d (g : nat -> nat -> A) :
  length (concat (tabulate n (fun s => tabulate d (g s)))) = (n * d)%nat.
Proof.
  unfold tabulate at 1. generalize 0%nat. 
  induction n as [|n IH]; intros k; simpl; [reflexivity|].
  rewrite length_app, length_tabulate, IH. reflexivity.
Qed.

Lemma length_nonzero_le l : (length (nonzero l) <= length l)%nat.
Proof.
  unfold nonzero. rewrite length_nonzero_from. apply filter_length_le.
Qed.

(** X14. What the loop of [estimate] computes for an index: [est] has [n]
    entries for the sentinel and [n * d] otherwise; the count is at most
    the number of columns of the neighbourhood table; and the count is
    zero exactly for the sentinel, exactly when no neighbour list is
    recorded. *)
Theorem estimate_at_output_shape nn_type Z M nb i j r :
  estimate_at nn_type Z M nb i j = Ok r ->
  length (est r) = (if (0 <? nn_count_rc r)%nat then t_n Z * t_d Z else t_n Z)%nat /\
  (nn_count_rc r <= b_cols nb)%nat /\
  (nn_count_rc r = 0%nat <-> r = sentinel Z) /\
  (nn_count_rc r = 0%nat <-> list_neighbors_rc r = None).
Proof.
  intros H. destruct (estimate_at_inv _ _ _ _ _ _ _ H) as [k [o [msk [_ [_ Hr]]]]].
  cbv zeta in Hr.
  pose proof (length_nonzero_le (neighbor_row nb k)) as Hle.
  unfold neighbor_row in Hle at 2. rewrite length_tabulate in Hle.
  destruct (Nat.ltb_spec 0 (length (nonzero (neighbor_row nb k)) * t_n Z * t_d Z)) as [Hs|Hs].
  - destruct Hr as [He [Hc [both [_ Hl]]]]. rewrite He, Hc, Hl.
    assert (Hpos : (0 < length (nonzero (neighbor_row nb k)))%nat) by nia.
    apply Nat.ltb_lt in Hpos as Hb. rewrite Hb.
    split; [apply length_concat_tabulate|]. split; [exact Hle|].
    split; (split; intros E; [lia|]); [|discriminate].
    rewrite E in Hc. cbn in Hc. lia.
  - subst r. cbn. rewrite repeat_length. repeat split; lia.
Qed.

Lemma estimate_at_output_shape_witness :
  let r := mk_cell_estimate [zero; zero; zero] 1 (Some [0%nat]) in
  length (est r) = (if (0 <? nn_count_rc r)%nat then t_n Z223 * t_d Z223 else t_n Z223)%nat /\
  (nn_count_rc r <= b_cols (le_scalar D223 (of_Z 7)))%nat /\
  (nn_count_rc r = 0%nat <-> r = sentinel Z223) /\
  (nn_count_rc r = 0%nat <-> list_neighbors_rc r = None).
Proof.
  apply (estimate_at_output_shape "ii" Z223 (ones 2 2) (le_scalar D223 (of_Z 7)) 0 1).
  vm_compute. reflexivity.
Defined.

Lemma call_ok_indices nn_type Z M dists (i j : nat) :
  call_ok nn_type Z M dists (Z.of_nat i) (Z.of_nat j) = true ->
  i_rows M = t_N Z /\ i_cols M = t_T Z /\
  norm_index (t_N Z) (Z.of_nat i) = Ok i /\
  norm_index (t_T Z) (Z.of_nat j) = Ok j /\
  f_rows dists = (if (nn_type =? "ii")%string then t_T Z else t_N Z) /\
  f_cols dists = (if (nn_type =? "ii")%string then t_T Z else t_N Z).
Proof.
  unfold call_ok. intros H. repeat (apply andb_prop in H as [H ?]).
  apply Nat.eqb_eq in H.
  repeat match goal with
         | E : (_ =? _)%nat = true |- _ => apply Nat.eqb_eq in E
         end.
  split; [assumption|]. split; [assumption|].
  split; [apply norm_index_of_nat; assumption|].
  split; [apply norm_index_of_nat; assumption|].
  destruct (nn_type =? "ii")%string;
    match goal with
    | E : _ && _ = true |- _ => apply andb_prop in E as [Er Ec];
        apply Nat.eqb_eq in Er; apply Nat.eqb_eq in Ec
    end; auto.
Qed.

Lemma map_tabulate {A B} (h : A -> B) n (f : nat -> A) :
  map h (tabulate n f) = tabulate n (fun t => h (f t)).
Proof. unfold tabulate. apply map_map. Qed.

Lemma length_filter_zero {A} (p : A -> bool) l :
  length (filter p l) = 0%nat <-> forall x, In x l -> p x = false.
Proof.
  induction l as [|x l IH]; simpl.
  - split; [intros _ y [] | reflexivity].
  - destruct (p x) eqn:E; simpl.
    + split; [discriminate|]. intros H. rewrite (H x (or_introl eq_refl)) in E. discriminate.
    + rewrite IH. split.
      * intros H y [<-|Hy]; auto.
      * intros H y Hy. apply H. auto.
Qed.

(** X15. With arguments that fit together and at least one sample per
    cell, the loop of [estimate] computes the sentinel (negative
    infinities, count zero, no neighbour list) for an index exactly
    when no entry of its row of [dists] is within [eta]. *)
Theorem estimate_at_sentinel_iff_no_neighbor nn_type Z M dists eta (i j : nat) :
  call_ok nn_type Z M dists (Z.of_nat i) (Z.of_nat j) = true ->
  (0 < t_n Z * t_d Z)%nat ->
  let k := if (nn_type =? "ii")%string then j else i in
  exists r,
    estimate_at nn_type Z M (le_scalar dists eta) (Z.of_nat i) (Z.of_nat j) = Ok r /\
    (r = sentinel Z <->
     forall t, (t < f_cols dists)%nat -> leb (f_at dists k t) eta = false).
Proof.
  intros Hok Hnd k.
  destruct (estimate_at_returns _ _ _ _ eta _ _ Hok) as [r Hr].
  exists r. split; [exact Hr|].
  destruct (call_ok_indices _ _ _ _ _ _ Hok) as [_ [_ [Hi [Hj [Hrows _]]]]].
  destruct (estimate_at_inv _ _ _ _ _ _ _ Hr) as [k' [o [msk [Hk [_ Hb]]]]].
  assert (Ek : k' = k).
  { cbn [b_rows le_scalar] in Hk. rewrite Hrows in Hk. subst k.
    destruct (nn_type =? "ii")%string; congruence. }
  subst k'. cbv zeta in Hb. unfold neighbor_row in Hb.
  rewrite nonzero_tabulate in Hb. cbn [b_cols b_at le_scalar] in Hb.
  set (sel := filter (fun t => leb (f_at dists k t) eta) (seq 0 (f_cols dists))) in *.
  assert (Hz : length sel = 0%nat <->
               forall t, (t < f_cols dists)%nat -> leb (f_at dists k t) eta = false).
  { unfold sel. rewrite length_filter_zero. split; intros H t Ht; apply H.
    - apply in_seq. lia.
    - apply in_seq in Ht. lia. }
  destruct (Nat.ltb_spec 0 (length sel * t_n Z * t_d Z)) as [Hs|Hs].
  - destruct Hb as [_ [Hc _]]. split.
    + intros ->. cbn in Hc. nia.
    + intros H. apply Hz in H. nia.
  - split; [|intros _; exact Hb]. intros _. apply Hz. nia.
Qed.

Lemma estimate_at_sentinel_witness :
  exists r,
    estimate_at "ii" Z223 (ones 2 2) (le_scalar D223 zero) (Z.of_nat 0) (Z.of_nat 1) = Ok r /\
    (r = sentinel Z223 <->
     forall t, (t < f_cols D223)%nat -> leb (f_at D223 1 t) zero = false).
Proof.
  apply (estimate_at_sentinel_iff_no_neighbor "ii" Z223 (ones 2 2) D223 zero 0 1).
  - vm_compute. reflexivity.
  - simpl. lia.
Defined.

(** X16. The neighbour list the loop of [estimate] records for an index
    holds exactly the positions within [eta] whose mask entry on the
    orthogonal axis is odd (1 among the codes 0, 1, 2), and is never
    longer than the neighbour count. *)
Theorem estimate_at_list_neighbors nn_type Z M dists eta (i j : nat) r l :
  call_ok nn_type Z M dists (Z.of_nat i) (Z.of_nat j) = true ->
  estimate_at nn_type Z M (le_scalar dists eta) (Z.of_nat i) (Z.of_nat j) = Ok r ->
  list_neighbors_rc r = Some l ->
  let k := if (nn_type =? "ii")%string then j else i in
  (forall t, In t l <->
     (t < f_cols dists)%nat /\ leb (f_at dists k t) eta = true /\
     Z.odd (if (nn_type =? "ii")%string then i_at M i t else i_at M t j) = true) /\
  (length l <= nn_count_rc r)%nat.
Proof.
  intros Hok Hr Hl k.
  destruct (call_ok_indices _ _ _ _ _ _ Hok) as [HMr [HMc [Hi [Hj [Hrows Hcols]]]]].
  destruct (estimate_at_inv _ _ _ _ _ _ _ Hr) as [k' [o [msk [Hk [Ho Hb]]]]].
  assert (Ek : k' = k).
  { cbn [b_rows le_scalar] in Hk. rewrite Hrows in Hk. subst k.
    destruct (nn_type =? "ii")%string; congruence. }
  subst k'. cbv zeta in Hb.
  destruct (0 <? _)%nat; [|subst r; discriminate].
  destruct Hb as [_ [Hc [both [Hboth Hln]]]].
  rewrite Hln in Hl. inversion Hl; subst l. clear Hl.
  assert (Hmsk : msk = tabulate (f_cols dists)
            (fun t => if (nn_type =? "ii")%string then i_at M i t else i_at M t j)).
  { rewrite Hcols. unfold irow, icol in Ho. rewrite HMr, HMc in Ho.
    destruct (nn_type =? "ii")%string; destruct Ho as [_ [Ho _]].
    - rewrite Hi in Ho. cbn [bind] in Ho. inversion Ho. reflexivity.
    - rewrite Hj in Ho. cbn [bind] in Ho. inversion Ho. reflexivity. }
  unfold neighbor_row in Hboth, Hc. cbn [b_cols b_at le_scalar] in Hboth, Hc.
  rewrite Hmsk, broadcast2_tabulate in Hboth. inversion Hboth; subst both. clear Hboth.
  rewrite !map_tabulate.
  split.
  - intros t. rewrite In_nonzero_tabulate.
    destruct (leb (f_at dists k t) eta).
    + rewrite land_1_eqb. tauto.
    + rewrite Z.land_0_l. cbn. split; intros [H1 H2]; [discriminate | destruct H2; discriminate].
  - rewrite Hc, !nonzero_tabulate. apply length_filter_mono.
    intros t. destruct (leb (f_at dists k t) eta); [reflexivity|].
    rewrite Z.land_0_l. discriminate.
Qed.

Lemma estimate_at_list_neighbors_witness :
  (forall t, In t [0%nat] <->
     (t < f_cols D223)%nat /\ leb (f_at D223 1 t) (of_Z 7) = true /\
     Z.odd (i_at (ones 2 2) 0 t) = true) /\
  (length [0%nat] <= 1)%nat.
Proof.
  apply (estimate_at_list_neighbors "ii" Z223 (ones 2 2) D223 (of_Z 7) 0 1
           (mk_cell_estimate [zero; zero; zero] 1 (Some [0%nat])) [0%nat]).
  - vm_compute. reflexivity.
  - vm_compute. reflexivity.
  - reflexivity.
Defined.

Lemma broadcast2_depends_on_length {A B C} (f : A -> B -> C) xs ys ys' :
  length ys = length ys' ->
  match broadcast2 f xs ys, broadcast2 f xs ys' with
  | Ok _, Ok _ => True
  | Raise e, Raise e' => e = e'
  | _, _ => False
  end.
Proof.
  intros H. unfold broadcast2. rewrite <- H.
  destruct (length xs =? length ys)%nat; [exact I|].
  destruct xs as [|x [|x' xs]], ys as [|y [|y' ys]], ys' as [|z [|z' ys']];
    cbn [length] in H; try discriminate; cbv beta iota; auto.
Qed.

(** X17. The estimate and the neighbour count the loop of [estimate]
    computes for an index are the same for any two masks of one shape:
    only the shape of [M] is read for them. *)
Theorem estimate_at_ignores_mask_values nn_type Z M M' nb i j :
  i_rows M = i_rows M' -> i_cols M = i_cols M' ->
  match estimate_at nn_type Z M nb i j, estimate_at nn_type Z M' nb i j with
  | Ok r, Ok r' => est r = est r' /\ nn_count_rc r = nn_count_rc r'
  | Raise e, Raise e' => e = e'
  | _, _ => False
  end.
Proof.
  intros Hr Hc. unfold estimate_at, irow, icol. rewrite <- Hr, <- Hc.
  destruct (nn_type =? "ii")%string.
  - destruct (brow nb j) as [t_nn|e]; cbn [bind]; [|reflexivity].
    destruct (norm_index (i_rows M) i) as [ri|e]; cbn [bind]; [|reflexivity].
    destruct (take_row_mask Z i t_nn) as [nbrs|e]; cbn [bind]; [|reflexivity].
    destruct (0 <? size nbrs)%nat; [|split; reflexivity].
    match goal with |- context [broadcast2 ?f ?xs (tabulate ?n ?g)] =>
      match goal with |- context [broadcast2 f xs (tabulate n ?g')] =>
        lazymatch g' with g => fail | _ =>
          pose proof (broadcast2_depends_on_length f xs (tabulate n g) (tabulate n g')) as Hb
        end end end.
    rewrite !length_tabulate in Hb. specialize (Hb eq_refl).
    destruct (broadcast2 _ t_nn _) as [b1|e1], (broadcast2 _ t_nn _) as [b2|e2];
      cbn [bind]; try contradiction; [split; reflexivity | exact Hb].
  - destruct (brow nb i) as [t_nn|e]; cbn [bind]; [|reflexivity].
    destruct (norm_index (i_cols M) j) as [rj|e]; cbn [bind]; [|reflexivity].
    destruct (take_mask_col Z t_nn j) as [nbrs|e]; cbn [bind]; [|reflexivity].
    destruct (0 <? size nbrs)%nat; [|split; reflexivity].
    match goal with |- context [broadcast2 ?f ?xs (tabulate ?n ?g)] =>
      match goal with |- context [broadcast2 f xs (tabulate n ?g')] =>
        lazymatch g' with g => fail | _ =>
          pose proof (broadcast2_depends_on_length f xs (tabulate n g) (tabulate n g')) as Hb
        end end end.
    rewrite !length_tabulate in Hb. specialize (Hb eq_refl).
    destruct (broadcast2 _ t_nn _) as [b1|e1], (broadcast2 _ t_nn _) as [b2|e2];
      cbn [bind]; try contradiction; [split; reflexivity | exact Hb].
Qed.

Lemma estimate_at_ignores_mask_witness :
  match estimate_at "ii" (Z_masked 7) M_masked (le_scalar D_near zero) 0 0,
        estimate_at "ii" (Z_masked 7) (ones 1 2) (le_scalar D_near zero) 0 0 with
  | Ok r, Ok r' => est r = est r' /\ nn_count_rc r = nn_count_rc r'
  | Raise e, Raise e' => e = e'
  | _, _ => False
  end.
Proof.
  apply (estimate_at_ignores_mask_values "ii" (Z_masked 7) M_masked (ones 1 2)
           (le_scalar D_near zero) 0 0); reflexivity.
Defined.

Lemma estimate_loop_cons_raises nn_type Z M nb i j rest acc :
  exists e, estimate_loop nn_type Z M nb ((i, j) :: rest) acc = Raise e.
Proof.
  cbn [estimate_loop]. destruct (estimate_at nn_type Z M nb i j) as [r|e]; cbn; eauto.
Qed.

(** X13. [estimate] returns only for an empty index list and a mask of
    the shape of [Z]'s first two axes, and then returns the accumulators
    as they were created: tables of [None], and a count matrix of
    not-a-number. A mask of another shape raises [IndexError] even when
    no index is requested. *)
Theorem estimate_returns_only_without_indices nn_type Z M eta inds dists ret_nn :
  match estimate nn_type Z M eta inds dists ret_nn with
  | Ok r =>
      inds = [] /\ i_rows M = t_N Z /\ i_cols M = t_T Z /\
      r = (if ret_nn
           then RetAll (mk_accumulators (repeat (repeat None (t_T Z)) (t_N Z))
                          (full (t_N Z) (t_T Z) nan)
                          (repeat (repeat None (t_T Z)) (t_N Z)))
           else RetEsts (repeat (repeat None (t_T Z)) (t_N Z)))
  | Raise e =>
      inds <> [] \/ (e = IndexError /\ ~ (i_rows M = t_N Z /\ i_cols M = t_T Z))
  end.
Proof.
  unfold estimate, set_nan_where.
  destruct (Nat.eqb_spec (i_rows M) (t_N Z)) as [Er|Er];
    [destruct (Nat.eqb_spec (i_cols M) (t_T Z)) as [Ec|Ec]|]; cbn.
  - rewrite Er, Ec, !Nat.eqb_refl. cbn.
    destruct inds as [|[i j] rest].
    + cbn. destruct ret_nn; repeat split; reflexivity.
    + destruct (estimate_loop_cons_raises nn_type Z M (le_scalar dists eta) i j rest
                  (mk_accumulators (repeat (repeat None (t_T Z)) (t_N Z))
                     (full (t_N Z) (t_T Z) nan) (repeat (repeat None (t_T Z)) (t_N Z))))
        as [e ->].
      cbn. left. discriminate.
  - right. split; [reflexivity | tauto].
  - right. split; [reflexivity | tauto].
Qed.
